(** * Sharpe ratio optimizer: a shallow embedding of [sharpe_optimizer.py]

    Scalars are IEEE binary64 numbers (numpy's [float64], Python's [float]),
    embedded as Rocq's primitive floats.  A missing observation in a pandas
    table is the float NaN, exactly as pandas stores it in a float column.
    Exceptions are values of [exn] carried by the [result] monad. *)

From Stdlib Require Import String List ZArith Bool Lia Sorted.
From Stdlib Require Import Floats.
Import ListNotations.

Local Open Scope list_scope.

(** ** IEEE binary64 *)

Module F64.

Definition notna (x : float) : bool := negb (is_nan x).

(** An int as a float, in Python and in numpy: the binary64 number nearest
    to it, ties to even, at any magnitude.  An integer beyond the range of
    binary64 gives an infinity here, where Python raises [OverflowError];
    nothing below is stated about the program at such an integer. *)
Definition of_int (z : Z) : float :=
  SF2Prim (binary_normalize prec emax z 0 false).

Definition of_nat (n : nat) : float := of_int (Z.of_nat n).

(** [np.isfinite]: neither NaN nor an infinity. *)
Definition isfinite (x : float) : bool := (abs x <? infinity)%float.

(** A strictly positive finite number: what a quoted price is. *)
Definition finite_pos (x : float) : bool :=
  ((0 <? x) && (x <? infinity))%float.

(** A specification float that is not NaN and carries the sign [s]. *)
Definition signed (s : bool) (f : spec_float) : Prop :=
  match f with
  | S754_nan => False
  | S754_zero s' | S754_infinity s' | S754_finite s' _ _ => s' = s
  end.

End F64.

(** ** Exceptions and the error monad *)

Inductive exn : Type :=
| ValueError (msg : string)
| RuntimeError (msg : string)
| OverflowError (msg : string)
| ZeroDivisionError (msg : string).

Inductive result (A : Type) : Type :=
| Ok (a : A)
| Raise (e : exn).

Arguments Ok {A} a.
Arguments Raise {A} e.

Definition bind {A B} (m : result A) (k : A -> result B) : result B :=
  match m with
  | Ok a => k a
  | Raise e => Raise e
  end.

Notation "x <- m ;; k" := (bind m (fun x => k))
  (at level 61, m at next level, right associativity).

Definition raises {A} (m : result A) : Prop := exists e, m = Raise e.

(** Element-wise combination of two aligned sequences. *)
Fixpoint map2 {A B C} (f : A -> B -> C) (l : list A) (l' : list B) : list C :=
  match l, l' with
  | a :: t, b :: t' => f a b :: map2 f t t'
  | _, _ => []
  end.

(** A fallible function over a sequence, left to right: the first exception
    ends the traversal. *)
Fixpoint mapM {A B} (f : A -> result B) (l : list A) : result (list B) :=
  match l with
  | [] => Ok []
  | a :: t => b <- f a ;; bs <- mapM f t ;; Ok (b :: bs)
  end.

(** ** numpy: the array operations the program calls

    Reductions are written as the left-to-right reference loop; numpy leaves
    the association order of a float reduction to the BLAS in use. *)

Module Np.

Definition vector := list float.
Definition matrix := list (list float).

(** [np.sum(v)] *)
Definition sum (v : vector) : float := fold_left add v 0%float.

(** [np.ones(n)] *)
Definition ones (n : nat) : vector := repeat 1%float n.

(** [v / c] for an array [v] and a scalar [c] *)
Definition divide (v : vector) (c : float) : vector :=
  map (fun a => (a / c)%float) v.

(** [a @ b] for two 1-D arrays; numpy raises [ValueError] when the lengths
    differ (its message is abridged here). *)
Definition dot (a b : vector) : result float :=
  if (length a =? length b)%nat then Ok (sum (map2 mul a b))
  else Raise (ValueError "matmul: input operand has a mismatch in its core dimension").

(** Number of columns of a 2-D array given by its rows; the empty matrix has
    shape (0, 0). *)
Definition width (m : matrix) : nat :=
  match m with
  | [] => 0
  | r :: _ => length r
  end.

Definition column (j : nat) (m : matrix) : vector :=
  map (fun r => nth j r nan) m.

Definition rectangular (m : matrix) : bool :=
  forallb (fun r => (length r =? width m)%nat) m.

(** [w @ m] for a 1-D [w] and a 2-D [m]: shape (n) @ (n, k) gives (k). *)
Definition vecmat (w : vector) (m : matrix) : result vector :=
  if ((length w =? length m)%nat && rectangular m)%bool
  then Ok (map (fun j => sum (map2 mul w (column j m))) (seq 0 (width m)))
  else Raise (ValueError "matmul: input operand has a mismatch in its core dimension").

End Np.

(** ** pandas: the table operations the program calls

    A [DataFrame] is a table of floats, one row per timestamp and one column
    per asset; NaN is the missing value. *)

Module Pd.

Record DataFrame : Type := mkDF { ncols : nat; rows : list (list float) }.

Definition column (i : nat) (df : DataFrame) : list float :=
  map (fun r => nth i r nan) (rows df).

Definition cell (t i : nat) (df : DataFrame) : float :=
  nth i (nth t (rows df) []) nan.

(** [df.dropna(how="all")]: a row is kept when at least one cell is
    observed. *)
Definition dropna_all (df : DataFrame) : DataFrame :=
  mkDF (ncols df) (filter (existsb F64.notna) (rows df)).

(** [df.shift(1)]: every row moves one timestamp down, the first row becomes
    missing and the last one falls off. *)
Definition shift (df : DataFrame) : DataFrame :=
  mkDF (ncols df)
       (firstn (length (rows df)) (repeat nan (ncols df) :: rows df)).

(** [df.ffill()]: a missing cell takes the last observation above it. *)
Definition fill_row (last r : list float) : list float :=
  map2 (fun l a => if is_nan a then l else a) last r.

Fixpoint ffill_rows (last : list float) (rs : list (list float)) :=
  match rs with
  | [] => []
  | r :: rs' => let r' := fill_row last r in r' :: ffill_rows r' rs'
  end.

Definition ffill (df : DataFrame) : DataFrame :=
  mkDF (ncols df) (ffill_rows (repeat nan (ncols df)) (rows df)).

(** The default of [pct_change]'s [fill_method] argument depends on the
    installed pandas: older releases pad (forward fill) before dividing,
    newer ones do not fill. *)
Inductive fill_method : Type := FillNone | FillPad.

(** [df.pct_change()]: [data / data.shift(1) - 1]. *)
Definition pct_change (fm : fill_method) (df : DataFrame) : DataFrame :=
  let data := match fm with FillPad => ffill df | FillNone => df end in
  let shifted := shift data in
  mkDF (ncols df)
       (map2 (map2 (fun a b => (a / b - 1)%float)) (rows data) (rows shifted)).

(** [Series.mean()], [skipna=True]: the sum of the observed values over
    their count (NaN when nothing is observed). *)
Definition mean_col (c : list float) : float :=
  let vals := filter F64.notna c in
  (Np.sum vals / F64.of_nat (length vals))%float.

(** [df.mean()]: one mean per column. *)
Definition mean (df : DataFrame) : list float :=
  map (fun i => mean_col (column i df)) (seq 0 (ncols df)).

Section Covariance.

(** An entry of [df.cov()] is the sample covariance, [ddof=1], of two columns
    over the rows that count for them.  pandas fixes which rows count and
    that an entry over fewer than two of them is missing.  The number itself
    comes from one of two floating-point routines, [np.cov] over the BLAS when
    no cell of the table is missing and the loop of [nancorr] otherwise, and
    its last bits depend on the routine, the BLAS and the pandas release.
    The routine is therefore a parameter: [sample_cov df i j] is what it
    returns for the columns [i] and [j] of [df]. *)
Variable sample_cov : DataFrame -> nat -> nat -> float.

(** [notna(mat).all()] *)
Definition complete (df : DataFrame) : bool :=
  forallb (fun i => forallb F64.notna (column i df)) (seq 0 (ncols df)).

(** The rows that count for a pair of columns: all of them when no cell of
    the table is missing, otherwise those at which both are finite. *)
Definition usable_pairs (df : DataFrame) (i j : nat) : list (float * float) :=
  filter (fun p => if complete df then true
                   else (F64.isfinite (fst p) && F64.isfinite (snd p))%bool)
         (combine (column i df) (column j df)).

Definition cov_entry (df : DataFrame) (i j : nat) : float :=
  if (length (usable_pairs df i j) <? 2)%nat then nan
  else sample_cov df i j.

(** [df.cov()] *)
Definition cov (df : DataFrame) : Np.matrix :=
  map (fun i => map (fun j => cov_entry df i j) (seq 0 (ncols df)))
      (seq 0 (ncols df)).

End Covariance.

End Pd.

(** ** Data loading and returns *)

(** What [yf.download] hands back: a table given by its columns, each a
    label and the series of its values, all over one index (one value per
    timestamp in every series).  The label is a pair (field, ticker) under
    MultiIndex columns and a field ([Open], [Close], [Adj Close], ...) under
    single-level columns.  Nothing keeps a label from occurring twice. *)
Inductive Download : Type :=
| MultiLevel (columns : list ((string * string) * list float))
| SingleLevel (columns : list (string * list float)).

(** The series of a table's columns, in column order. *)
Definition series_of (data : Download) : list (list float) :=
  match data with
  | MultiLevel cols => map snd cols
  | SingleLevel cols => map snd cols
  end.

(** [data.empty]: some axis has length 0. *)
Definition download_empty (data : Download) : bool :=
  match series_of data with
  | [] => true
  | s :: _ => (length s =? 0)%nat
  end.

(** The columns that carry the label [name], in column order. *)
Definition labelled {A} (name : string) (cols : list (string * A)) : list A :=
  map snd (filter (fun c => String.eqb (fst c) name) cols).

(** The first level of a MultiIndex label. *)
Definition level0 (cols : list ((string * string) * list float))
  : list (string * list float) :=
  map (fun c => (fst (fst c), snd c)) cols.

(** The table whose columns are the series [ss], over their one index. *)
Definition of_series (ss : list (list float)) : Pd.DataFrame :=
  Pd.mkDF (length ss)
          (map (fun t => map (fun s => nth t s nan) ss)
               (seq 0 (length (hd [] ss)))).

(** What [data[name]] is: a series where a single-level label picks out one
    column, a table otherwise. *)
Inductive Selection : Type :=
| SeriesSel (s : list float)
| FrameSel (df : Pd.DataFrame).

(** [data[name]], for a [name] found among the labels ([None] when it is
    not): every column carrying the label is selected. *)
Definition getitem (name : string) (data : Download) : option Selection :=
  match data with
  | MultiLevel cols =>
      match labelled name (level0 cols) with
      | [] => None
      | ss => Some (FrameSel (of_series ss))
      end
  | SingleLevel cols =>
      match labelled name cols with
      | [] => None
      | [s] => Some (SeriesSel s)
      | ss => Some (FrameSel (of_series ss))
      end
  end.

(** [Series.to_frame()] *)
Definition to_frame (s : list float) : Pd.DataFrame :=
  Pd.mkDF 1 (map (fun a => [a]) s).

(** The message of the second [ValueError] ends with the printed column
    index, which is left out here. *)
Definition no_price_column : exn :=
  ValueError "Could not find 'Adj Close' or 'Close' in columns: ".

(** [prices.to_frame()] where the selection is a series. *)
Definition as_frame (sel : Selection) : Pd.DataFrame :=
  match sel with
  | SeriesSel s => to_frame s
  | FrameSel df => df
  end.

(** [download_prices], from the downloaded [data] on. *)
Definition download_prices (data : Download) : result Pd.DataFrame :=
  if download_empty data
  then Raise (ValueError "No data downloaded. Check tickers and date range.")
  else
    prices <-
      match getitem "Adj Close" data with
      | Some sel => Ok sel
      | None =>
          match getitem "Close" data with
          | Some sel => Ok sel
          | None => Raise no_price_column
          end
      end ;;
    let prices := as_frame prices in
    Ok (Pd.dropna_all prices).

(** [compute_daily_returns]; [fm] is the installed pandas' default
    [fill_method]. *)
Definition compute_daily_returns (fm : Pd.fill_method) (prices : Pd.DataFrame)
  : Pd.DataFrame :=
  Pd.dropna_all (Pd.pct_change fm prices).

(** ** Portfolio statistics *)

Definition default_trading_days : Z := 252.

(** [daily_cov * trading_days]: every entry times the number of trading
    days, an int that is converted to a float. *)
Definition annualize_covariance (daily_cov : Np.matrix) (trading_days : Z)
  : Np.matrix :=
  map (map (fun c => (c * F64.of_int trading_days)%float)) daily_cov.

Section Estimator.

(** Python's [x ** n] for a float [x] and an int [n]: the C library's [pow],
    and [OverflowError] where its result is out of range. *)
Variable float_pow : float -> Z -> result float.

(** The routine behind [DataFrame.cov]. *)
Variable sample_cov : Pd.DataFrame -> nat -> nat -> float.

Definition annualize_returns (mean_daily : float) (trading_days : Z)
  : result float :=
  p <- float_pow (1 + mean_daily)%float trading_days ;;
  Ok (p - 1)%float.

(** The estimation step of [main]: the vector mu and the matrix Sigma.
    [Series.apply] calls [annualize_returns] on one mean after the other. *)
Definition estimate_moments (returns : Pd.DataFrame)
  : result (Np.vector * Np.matrix) :=
  let mean_daily_returns := Pd.mean returns in
  exp_returns <-
    mapM (fun m => annualize_returns m default_trading_days)
         mean_daily_returns ;;
  let cov_daily := Pd.cov sample_cov returns in
  let cov_annual := annualize_covariance cov_daily default_trading_days in
  Ok (exp_returns, cov_annual).

End Estimator.

Definition portfolio_stats (weights exp_returns : Np.vector)
    (cov_matrix : Np.matrix) (risk_free_rate : float)
  : result (float * float * float) :=
  port_ret <- Np.dot weights exp_returns ;;
  wc <- Np.vecmat weights cov_matrix ;;
  port_var <- Np.dot wc weights ;;
  let port_vol := sqrt port_var in
  let sharpe :=
    if (port_vol =? 0)%float then 0%float
    else ((port_ret - risk_free_rate) / port_vol)%float in
  Ok (port_ret, port_vol, sharpe).

(** The variance [w @ cov @ w] that [portfolio_stats] computes on the way. *)
Definition portfolio_variance (weights : Np.vector) (cov_matrix : Np.matrix)
  : result float :=
  wc <- Np.vecmat weights cov_matrix ;;
  Np.dot wc weights.

(** ** Optimization *)

Definition negative_sharpe (weights exp_returns : Np.vector)
    (cov_matrix : Np.matrix) (risk_free_rate : float) : result float :=
  st <- portfolio_stats weights exp_returns cov_matrix risk_free_rate ;;
  let '(_, _, sharpe) := st in
  Ok (- sharpe)%float.

(** One constraint dictionary of [scipy.optimize.minimize]. *)
Record Constraint : Type := mkConstraint {
  ctype : string;
  cfun : Np.vector -> float
}.

(** The arguments of the [minimize] call. *)
Record Problem : Type := mkProblem {
  pb_fun : Np.vector -> Np.vector -> Np.matrix -> float -> result float;
  pb_x0 : Np.vector;
  pb_args : Np.vector * Np.matrix * float;
  pb_method : string;
  pb_bounds : list (float * float);
  pb_constraints : Constraint
}.

(** The value the solver sees at a point [w]: [fun(w, *args)]. *)
Definition objective (pb : Problem) (w : Np.vector) : result float :=
  let '(mu, cov, rf) := pb_args pb in pb_fun pb w mu cov rf.

(** scipy's [OptimizeResult], the fields the program reads. *)
Record OptimizeResult : Type := mkResult {
  success : bool;
  message : string;
  x : Np.vector
}.

(** The search problem [optimize_sharpe] builds. *)
Definition sharpe_problem (exp_returns : Np.vector) (cov_matrix : Np.matrix)
    (risk_free_rate : float) : Problem :=
  let num_assets := length exp_returns in
  let x0 := Np.divide (Np.ones num_assets) (F64.of_nat num_assets) in
  let constraints :=
    mkConstraint "eq" (fun w => (Np.sum w - 1)%float) in
  let bounds := map (fun _ => (0%float, 1%float)) (seq 0 num_assets) in
  mkProblem negative_sharpe x0 (exp_returns, cov_matrix, risk_free_rate)
            "SLSQP" bounds constraints.

Section Allocator.

(** [scipy.optimize.minimize], the external solver.  It calls the objective
    and the constraint it is given, and an exception raised in there, or by
    the solver itself, ends the call. *)
Variable minimize : Problem -> result OptimizeResult.

Definition optimize_sharpe (exp_returns : Np.vector) (cov_matrix : Np.matrix)
    (risk_free_rate : float) : result Np.vector :=
  result <- minimize (sharpe_problem exp_returns cov_matrix risk_free_rate) ;;
  if negb (success result)
  then Raise (RuntimeError ("Optimization failed: " ++ message result))
  else Ok (x result).

End Allocator.

(** ** Vocabulary of the statements *)

Local Open Scope float_scope.

(** The shapes [portfolio_stats] needs: [n] weights, [n] expected returns and
    an [n] by [n] covariance matrix. *)
Definition conformable (w mu : Np.vector) (cov : Np.matrix) : bool :=
  ((length w =? length mu)%nat && (length w =? length cov)%nat
   && Np.rectangular cov && (Np.width cov =? length w)%nat)%bool.

(** The table [download_prices] selects from the download, before its
    all-missing rows are dropped: the columns labelled [Adj Close] when there
    are any, else those labelled [Close]. *)
Definition selected_prices (data : Download) : option Pd.DataFrame :=
  option_map as_frame
    match getitem "Adj Close" data with
    | Some sel => Some sel
    | None => getitem "Close" data
    end.

(** A two-asset download with MultiIndex columns that holds the one field
    [name]: the series [a] and [b] under the tickers AAA and BBB. *)
Definition two_assets (name : string) (a b : list float) : Download :=
  MultiLevel [((name, "AAA"%string), a); ((name, "BBB"%string), b)].

(** A valid price table: at least one asset, one quoted (finite, strictly
    positive) price per asset at every timestamp. *)
Definition valid_row (n : nat) (r : list float) : bool :=
  ((length r =? n)%nat && forallb F64.finite_pos r)%bool.

Definition valid_prices (df : Pd.DataFrame) : bool :=
  ((1 <=? Pd.ncols df)%nat && forallb (valid_row (Pd.ncols df)) (Pd.rows df))%bool.

(** The timestamps (positions of rows) of a table at which at least one cell
    is observed, in increasing order. *)
Definition kept_timestamps (rs : list (list float)) : list nat :=
  filter (fun t => existsb F64.notna (nth t rs [])) (seq 0 (length rs)).

(** The simple return of one period. *)
Definition simple_return (p q : float) : float := p / q - 1.

(** [pct_change] row by row: each row against the row before it. *)
Fixpoint pct_rows (prev : list float) (rs : list (list float)) :=
  match rs with
  | [] => []
  | r :: rs' => map2 simple_return r prev :: pct_rows r rs'
  end.

(** Entry (i, j) of a matrix given by its rows. *)
Definition entry (i j : nat) (m : Np.matrix) : float :=
  nth j (nth i m []) nan.

(** [m * 2^e] with the trailing zero bits of [m] moved into the exponent. *)
Fixpoint odd_part (m : positive) (e : Z) : positive * Z :=
  match m with
  | xO m' => odd_part m' (e + 1)
  | _ => (m, e)
  end.

(** The power [b ^ n] of a finite non-zero [b], for [n >= 0], rounded to the
    nearest binary64 number (an infinity when it is out of range).  The
    power itself is computed exactly, on integers. *)
Definition round_pow (b : float) (n : Z) : float :=
  match Prim2SF b with
  | S754_finite s m e =>
      let '(m0, e0) := odd_part m e in
      let p := (Z.pos m0 ^ n)%Z in
      SF2Prim (binary_normalize prec emax
                 (if (s && Z.odd n)%bool then (- p)%Z else p) (e0 * n) false)
  | _ => nan
  end.


(** [**] with a correctly rounding [pow], for a finite base and an exponent
    [n >= 0]: a stand-in for Python's operator, used to run the estimator on
    concrete tables.  A zero base and a base that is not finite are not
    covered: no run below reaches them. *)
Definition rounding_pow (b : float) (n : Z) : result float :=
  match Prim2SF (round_pow b n) with
  | S754_infinity _ => Raise (OverflowError "(34, 'Numerical result out of range')")
  | _ => Ok (round_pow b n)
  end.

(** The sample covariance as the two-pass loop: the two means, then the sum
    of the products of the deviations over the number of rows less one.  A
    stand-in for the routine behind [DataFrame.cov], used to run the
    estimator on concrete tables. *)
Definition two_pass_cov (df : Pd.DataFrame) (i j : nat) : float :=
  let ps := Pd.usable_pairs df i j in
  let nobs := F64.of_nat (length ps) in
  let meanx := Np.sum (map fst ps) / nobs in
  let meany := Np.sum (map snd ps) / nobs in
  Np.sum (map (fun p => (fst p - meanx) * (snd p - meany)) ps) / (nobs - 1).

(** A solver evaluates the objective at the starting point before anything
    else, as SLSQP does: an exception raised there ends the call. *)
Definition evaluates_start (minimize : Problem -> result OptimizeResult) : Prop :=
  forall pb e, objective pb (pb_x0 pb) = Raise e -> minimize pb = Raise e.

(** Stand-ins for the solver, used to run the allocator on concrete
    problems.  Both evaluate the objective at the starting point; then one
    gives up at once and the other accepts the starting point. *)
Definition failing_solver (pb : Problem) : result OptimizeResult :=
  _ <- objective pb (pb_x0 pb) ;;
  Ok (mkResult false "Iteration limit reached" (pb_x0 pb)).

Definition accepting_solver (pb : Problem) : result OptimizeResult :=
  _ <- objective pb (pb_x0 pb) ;;
  Ok (mkResult true "Optimization terminated successfully" (pb_x0 pb)).

(** ** Console front end

    Text is a string of code points below 256.  What [main] prints and the
    chart it draws at the end are left out; the values it prints are kept in
    a [Report]. *)

(** [str.isspace] on one character, for code points below 256. *)
Definition isspace (c : Ascii.ascii) : bool :=
  let n := Ascii.nat_of_ascii c in
  (((9 <=? n)%nat && (n <=? 13)%nat) || ((28 <=? n)%nat && (n <=? 32)%nat)
   || (n =? 133)%nat || (n =? 160)%nat)%bool.

Definition is_empty (s : string) : bool :=
  match s with
  | EmptyString => true
  | String _ _ => false
  end.

Fixpoint lstrip (s : string) : string :=
  match s with
  | EmptyString => EmptyString
  | String c s' => if isspace c then lstrip s' else s
  end.

Fixpoint rstrip (s : string) : string :=
  match s with
  | EmptyString => EmptyString
  | String c s' =>
      let r := rstrip s' in
      if (isspace c && is_empty r)%bool then EmptyString else String c r
  end.

(** [s.strip()] *)
Definition strip (s : string) : string := rstrip (lstrip s).

(** [s.split()]: the maximal runs of characters that are not whitespace. *)
Fixpoint split (s : string) : list string :=
  match s with
  | EmptyString => []
  | String c s' =>
      if isspace c then split s'
      else
        match s' with
        | EmptyString => [String c EmptyString]
        | String d _ =>
            if isspace d then String c EmptyString :: split s'
            else
              match split s' with
              | t :: ts => String c t :: ts
              | [] => [String c EmptyString]
              end
        end
  end.

(** Every character of [s] satisfies [p]. *)
Fixpoint string_forall (p : Ascii.ascii -> bool) (s : string) : bool :=
  match s with
  | EmptyString => true
  | String c s' => (p c && string_forall p s')%bool
  end.

(** A word: not empty, no whitespace in it. *)
Definition is_word (s : string) : bool :=
  (negb (is_empty s) && string_forall (fun c => negb (isspace c)) s)%bool.

(** [" ".join(ws)] *)
Fixpoint join_spaces (ws : list string) : string :=
  match ws with
  | [] => EmptyString
  | [w] => w
  | w :: ws' => (w ++ " " ++ join_spaces ws')%string
  end.

(** The values [main] prints once the optimization is done. *)
Record Report : Type := mkReport {
  rp_tickers : list string;
  rp_rf_rate : float;
  rp_exp_returns : Np.vector;
  rp_cov_annual : Np.matrix;
  rp_optimal_weights : Np.vector;
  rp_stats : float * float * float
}.

(** How a run of [main] ends: [sys.exit], an uncaught exception, or the
    report, after which the chart is drawn. *)
Inductive Outcome : Type :=
| Exit (code : Z)
| Raised (e : exn)
| Done (r : Report).

Section Main.

(** Python's [**], the routine behind [DataFrame.cov], the solver and the
    installed pandas' default [fill_method], as before. *)
Variable float_pow : float -> Z -> result float.
Variable sample_cov : Pd.DataFrame -> nat -> nat -> float.
Variable minimize : Problem -> result OptimizeResult.
Variable fm : Pd.fill_method.

(** [yf.download(tickers, start=start, end=end, ...)], the market-data
    service. *)
Variable yf_download : list string -> string -> string -> Download.

(** Python's [float(s)]; [None] stands for its [ValueError]. *)
Variable parse_float : string -> option float.

(** [pd.DataFrame(cov_annual, index=tickers, columns=tickers)], built for
    printing: pandas raises [ValueError] when the matrix is not
    [len(tickers)] by [len(tickers)] (its message is abridged here). *)
Definition labelled_frame (cov_annual : Np.matrix) (tickers : list string)
  : result unit :=
  if ((length cov_annual =? length tickers)%nat
      && (Np.width cov_annual =? length tickers)%nat)%bool
  then Ok tt
  else Raise (ValueError "Shape of passed values does not match the indices").

(** [main], from the four lines read from the console on. *)
Definition main (tickers_line start_line end_line rf_line : string) : Outcome :=
  let tickers_input := strip tickers_line in
  let tickers := split tickers_input in
  if (length tickers <? 2)%nat then Exit 1
  else
    let start := strip start_line in
    let end_ := strip end_line in
    let rf_str := strip rf_line in
    let rf_rate :=
      if is_empty rf_str then 0
      else
        match parse_float rf_str with
        | Some v => v / 100
        | None => 0
        end in
    let run :=
      prices <- download_prices (yf_download tickers start end_) ;;
      let returns := compute_daily_returns fm prices in
      moments <- estimate_moments float_pow sample_cov returns ;;
      let '(exp_returns, cov_annual) := moments in
      _ <- labelled_frame cov_annual tickers ;;
      optimal_weights <- optimize_sharpe minimize exp_returns cov_annual rf_rate ;;
      stats <- portfolio_stats optimal_weights exp_returns cov_annual rf_rate ;;
      Ok (mkReport tickers rf_rate exp_returns cov_annual optimal_weights stats) in
    match run with
    | Ok r => Done r
    | Raise e => Raised e
    end.

End Main.

(** A market-data service that quotes the same two prices for two assets
    whatever is asked, and a number parser that knows one numeral. *)
Definition two_quotes (_ : list string) (_ _ : string) : Download :=
  two_assets "Adj Close" [4; 2; 3] [4; 6; 3].

Definition parse_four (s : string) : option float :=
  if String.eqb s "4" then Some 4 else None.

(** A matrix with nothing but NaN in it. *)
Definition all_nan (m : Np.matrix) : bool := forallb (forallb is_nan) m.

(** A table with one cell per column in every row and no cell missing. *)
Definition fully_observed (df : Pd.DataFrame) : bool :=
  forallb (fun r => ((length r =? Pd.ncols df)%nat && forallb F64.notna r)%bool)
          (Pd.rows df).

(** The risk-free rate [main] works with, from the line typed for it. *)
Definition rf_rate_of (parse_float : string -> option float) (rf_line : string)
  : float :=
  if is_empty (strip rf_line) then 0
  else
    match parse_float (strip rf_line) with
    | Some v => v / 100
    | None => 0
    end.

(** * Properties *)

(** ** IEEE binary64 facts *)

Module F64Facts.

Import F64.

Lemma is_nan_SF (x : float) : is_nan x = true <-> Prim2SF x = S754_nan.
Proof.
  unfold is_nan. rewrite eqb_spec. unfold SFeqb, SFcompare.
  destruct (Prim2SF x) as [s|s| |s m e]; simpl.
  - split; discriminate.
  - destruct s; simpl; split; discriminate.
  - split; reflexivity.
  - destruct s; rewrite Z.compare_refl, Pos.compare_cont_refl; simpl;
      split; discriminate.
Qed.

Lemma is_nan_eq (x : float) : is_nan x = true <-> x = nan.
Proof.
  rewrite is_nan_SF. split.
  - intros H. apply Prim2SF_inj. rewrite H. reflexivity.
  - intros ->. reflexivity.
Qed.

Lemma div_nan_r (x : float) : (x / nan)%float = nan.
Proof.
  apply Prim2SF_inj. rewrite div_spec. change (Prim2SF nan) with S754_nan.
  unfold SF64div, SFdiv. destruct (Prim2SF x); reflexivity.
Qed.

Lemma sub_nan_l (y : float) : (nan - y)%float = nan.
Proof.
  apply Prim2SF_inj. rewrite sub_spec. reflexivity.
Qed.

Lemma eqb_nan_l (y : float) : (nan =? y)%float = false.
Proof. rewrite eqb_spec. reflexivity. Qed.

(** The square root of a number that compares below zero is NaN. *)
Lemma sqrt_negative (x : float) : (x <? 0)%float = true -> sqrt x = nan.
Proof.
  intros H. apply Prim2SF_inj. rewrite sqrt_spec.
  rewrite ltb_spec in H. change (Prim2SF 0) with (S754_zero false) in H.
  unfold SF64sqrt, SFsqrt. unfold SFltb, SFcompare in H.
  destruct (Prim2SF x) as [s|s| |s m e]; try discriminate.
  - destruct s; [reflexivity | discriminate].
  - destruct s; [reflexivity | discriminate].
Qed.

Lemma mul_comm (x y : float) : (x * y)%float = (y * x)%float.
Proof.
  apply Prim2SF_inj. rewrite !mul_spec. unfold SF64mul, SFmul.
  destruct (Prim2SF x) as [sx|sx| |sx mx ex],
           (Prim2SF y) as [sy|sy| |sy my ey];
    try reflexivity; rewrite (xorb_comm sx sy); try reflexivity.
  now rewrite (Pos.mul_comm mx my), (Z.add_comm ex ey).
Qed.

(** *** Rounding never manufactures a NaN

    [binary_round_aux] has a NaN branch for a negative mantissa; it is dead
    code whenever the mantissa handed to it is non-negative. *)

Lemma signed_not_nan s f : signed s f -> f <> S754_nan.
Proof. destruct f; simpl; congruence. Qed.

Lemma iter_pos_invariant {A} (P : A -> Prop) (f : A -> A) :
  (forall a, P a -> P (f a)) ->
  forall p a, P a -> P (iter_pos f p a).
Proof.
  intros Hf. induction p as [p IH|p IH|]; intros a Ha; simpl; auto.
Qed.

Lemma shr_1_nonneg mrs : (0 <= shr_m mrs)%Z -> (0 <= shr_m (shr_1 mrs))%Z.
Proof.
  destruct mrs as [m r s]. destruct m as [|[p|p|]|[p|p|]]; simpl; lia.
Qed.

Lemma shr_fexp_nonneg m e l :
  (0 <= m)%Z -> (0 <= shr_m (fst (shr_fexp prec emax m e l)))%Z.
Proof.
  intros Hm. unfold shr_fexp, shr.
  assert (H0 : (0 <= shr_m (shr_record_of_loc m l))%Z)
    by (destruct l as [|[]]; exact Hm).
  destruct (fexp prec emax (Zdigits2 m + e) - e)%Z; simpl; auto.
  apply (iter_pos_invariant (fun r => (0 <= shr_m r)%Z)); auto using shr_1_nonneg.
Qed.

Lemma round_nearest_even_nonneg m l :
  (0 <= m)%Z -> (0 <= round_nearest_even m l)%Z.
Proof.
  intros Hm. destruct l as [|[]]; simpl; try destruct (Z.even m); lia.
Qed.

Lemma binary_round_aux_signed sx mx ex lx :
  (0 <= mx)%Z -> signed sx (binary_round_aux prec emax sx mx ex lx).
Proof.
  intros Hm. unfold binary_round_aux.
  pose proof (shr_fexp_nonneg mx ex lx Hm) as H1.
  destruct (shr_fexp prec emax mx ex lx) as [mrs' e']. simpl in H1.
  pose proof (shr_fexp_nonneg _ e' loc_Exact
                (round_nearest_even_nonneg _ (loc_of_shr_record mrs') H1)) as H2.
  destruct (shr_fexp prec emax _ e' loc_Exact) as [mrs'' e'']. simpl in H2.
  destruct (shr_m mrs'') as [|m|m]; [exact eq_refl | | lia].
  destruct (e'' <=? emax - prec)%Z; exact eq_refl.
Qed.

Lemma binary_round_signed sx mx ex :
  signed sx (binary_round prec emax sx mx ex).
Proof.
  unfold binary_round. destruct (shl_align mx ex _) as [mz ez].
  apply binary_round_aux_signed. lia.
Qed.

Lemma binary_normalize_not_nan m e sz :
  binary_normalize prec emax m e sz <> S754_nan.
Proof.
  destruct m; simpl; try discriminate;
    eapply signed_not_nan, binary_round_signed.
Qed.

Lemma SFdiv_core_nonneg m1 e1 m2 e2 :
  (0 <= fst (fst (SFdiv_core_binary prec emax (Zpos m1) e1 (Zpos m2) e2)))%Z.
Proof.
  unfold SFdiv_core_binary.
  set (s := (e1 - e2 - _)%Z).
  set (m' := match s with Zpos _ => Z.shiftl (Zpos m1) s | Z0 => Zpos m1 | Zneg _ => 0%Z end).
  assert (Hm' : (0 <= m')%Z).
  { subst m'. destruct s; try lia. apply Z.shiftl_nonneg. lia. }
  pose proof (Z.div_pos m' (Zpos m2) Hm' ltac:(lia)) as Hq.
  unfold Z.div in Hq. destruct (Z.div_eucl m' (Zpos m2)) as [q r]. exact Hq.
Qed.

Lemma finite_pos_SF x :
  finite_pos x = true -> exists m e, Prim2SF x = S754_finite false m e.
Proof.
  unfold finite_pos. rewrite andb_true_iff, !ltb_spec.
  change (Prim2SF 0) with (S754_zero false).
  change (Prim2SF infinity) with (S754_infinity false).
  unfold SFltb, SFcompare.
  destruct (Prim2SF x) as [s|s| |s m e]; intros [H1 H2]; try discriminate.
  - destruct s; discriminate.
  - destruct s; [discriminate | eauto].
Qed.

Lemma finite_pos_notna x : finite_pos x = true -> notna x = true.
Proof.
  intros H. destruct (finite_pos_SF x H) as (m & e & E).
  unfold notna. destruct (is_nan x) eqn:N; [|reflexivity].
  apply is_nan_SF in N. congruence.
Qed.

Lemma div_finite_pos x y :
  finite_pos x = true -> finite_pos y = true ->
  signed false (Prim2SF (x / y)).
Proof.
  intros Hx Hy.
  destruct (finite_pos_SF x Hx) as (mx & ex & Ex).
  destruct (finite_pos_SF y Hy) as (my & ey & Ey).
  rewrite div_spec, Ex, Ey. unfold SF64div, SFdiv.
  pose proof (SFdiv_core_nonneg mx ex my ey) as Hq.
  destruct (SFdiv_core_binary prec emax (Zpos mx) ex (Zpos my) ey) as [[mz ez] lz].
  simpl in Hq. apply binary_round_aux_signed. exact Hq.
Qed.

Lemma sub_finite_r x y s m e :
  Prim2SF x <> S754_nan -> Prim2SF y = S754_finite s m e ->
  Prim2SF (x - y) <> S754_nan.
Proof.
  intros Hx Ey. rewrite sub_spec, Ey. unfold SF64sub, SFsub.
  destruct (Prim2SF x) as [sx|sx| |sx mx ex]; try discriminate.
  - congruence.
  - apply binary_normalize_not_nan.
Qed.

(** A simple return of two quoted prices is never NaN. *)
Lemma simple_return_notna p q :
  finite_pos p = true -> finite_pos q = true ->
  notna (p / q - 1) = true.
Proof.
  intros Hp Hq. unfold notna.
  destruct (is_nan (p / q - 1)) eqn:N; [|reflexivity].
  apply is_nan_SF in N. exfalso. revert N.
  apply (sub_finite_r _ 1 false 4503599627370496%positive (-52)%Z).
  - eapply signed_not_nan, div_finite_pos; eassumption.
  - reflexivity.
Qed.

Lemma ltb_zero_eqb x : (0 <? x)%float = true -> (x =? 0)%float = false.
Proof.
  rewrite ltb_spec, eqb_spec. change (Prim2SF 0) with (S754_zero false).
  unfold SFltb, SFeqb, SFcompare.
  destruct (Prim2SF x) as [s|s| |s m e]; try discriminate;
    destruct s; intros H; try discriminate; reflexivity.
Qed.

(** A square root is NaN, a zero, or strictly positive: never negative. *)
Lemma sqrt_range x :
  sqrt x = nan \/ (sqrt x =? 0)%float = true \/ (0 <? sqrt x)%float = true.
Proof.
  destruct (is_nan (sqrt x)) eqn:N; [left; now apply is_nan_eq|right].
  assert (Hn : Prim2SF (sqrt x) <> S754_nan).
  { intros E. apply is_nan_SF in E. congruence. }
  rewrite eqb_spec, ltb_spec. change (Prim2SF 0) with (S754_zero false).
  revert Hn. rewrite sqrt_spec. unfold SF64sqrt, SFsqrt.
  destruct (Prim2SF x) as [s|s| |s m e].
  - intros _. left. reflexivity.
  - destruct s; [congruence | intros _; right; reflexivity].
  - congruence.
  - destruct s; [congruence|].
    destruct (SFsqrt_core_binary prec emax (Zpos m) e) as [[mz ez] lz].
    unfold binary_round_aux.
    destruct (shr_fexp prec emax mz ez lz) as [mrs' e'].
    destruct (shr_fexp prec emax _ e' loc_Exact) as [mrs'' e''].
    destruct (shr_m mrs'') as [|p|p]; [left; reflexivity | | congruence].
    destruct (e'' <=? emax - prec)%Z; intros _; right; reflexivity.
Qed.

End F64Facts.

(** ** Portfolio Evaluator *)

Lemma conformable_inv w mu cov :
  conformable w mu cov = true ->
  length w = length mu /\ length w = length cov /\
  Np.rectangular cov = true /\ Np.width cov = length w.
Proof.
  unfold conformable. rewrite !andb_true_iff, !Nat.eqb_eq. tauto.
Qed.

Lemma dot_ok a b :
  length a = length b -> Np.dot a b = Ok (Np.sum (map2 mul a b)).
Proof.
  intros H. unfold Np.dot. now rewrite H, Nat.eqb_refl.
Qed.

Lemma variance_ok w cov :
  length w = length cov -> Np.rectangular cov = true ->
  Np.width cov = length w ->
  exists var, portfolio_variance w cov = Ok var.
Proof.
  intros Hl Hr Hw. unfold portfolio_variance, Np.vecmat.
  rewrite Hl, Nat.eqb_refl, Hr. simpl.
  rewrite dot_ok by (now rewrite length_map, length_seq, Hw, Hl).
  eexists; reflexivity.
Qed.

(** [portfolio_stats] in terms of its two reductions. *)
Lemma portfolio_stats_unfold w mu cov rf ret var :
  Np.dot w mu = Ok ret -> portfolio_variance w cov = Ok var ->
  portfolio_stats w mu cov rf =
  Ok (ret, sqrt var,
      if (sqrt var =? 0) then 0 else (ret - rf) / sqrt var).
Proof.
  unfold portfolio_stats, portfolio_variance. intros -> H. simpl.
  destruct (Np.vecmat w cov) as [wc|e]; simpl in *; [|discriminate].
  now rewrite H.
Qed.

Lemma portfolio_stats_defined w mu cov rf :
  conformable w mu cov = true ->
  exists ret var,
    Np.dot w mu = Ok ret /\ portfolio_variance w cov = Ok var /\
    portfolio_stats w mu cov rf =
    Ok (ret, sqrt var, if (sqrt var =? 0) then 0 else (ret - rf) / sqrt var).
Proof.
  intros H. apply conformable_inv in H. destruct H as (H1 & H2 & H3 & H4).
  destruct (variance_ok w cov H2 H3 H4) as [var Hv].
  exists (Np.sum (map2 mul w mu)), var.
  pose proof (dot_ok w mu H1) as Hd.
  repeat split; auto using portfolio_stats_unfold.
Qed.

(** Conformable shapes are exactly the arguments on which nothing is
    raised. *)
Lemma portfolio_stats_ok_iff w mu cov rf :
  (exists t, portfolio_stats w mu cov rf = Ok t) <-> conformable w mu cov = true.
Proof.
  split.
  - intros [t Ht]. revert Ht.
    unfold portfolio_stats, Np.dot, Np.vecmat, conformable.
    destruct (length w =? length mu)%nat; simpl; [|discriminate].
    destruct (length w =? length cov)%nat; simpl; [|discriminate].
    destruct (Np.rectangular cov); simpl; [|discriminate].
    rewrite length_map, length_seq.
    destruct (Np.width cov =? length w)%nat; simpl; [reflexivity|discriminate].
  - intros H. destruct (portfolio_stats_defined w mu cov rf H)
      as (ret & var & _ & _ & Hs). eauto.
Qed.

Lemma result_cases {A} (m : result A) : (exists a, m = Ok a) \/ raises m.
Proof. destruct m as [a|e]; [left|right]; eexists; reflexivity. Qed.

Lemma portfolio_stats_value_error w mu cov rf e :
  portfolio_stats w mu cov rf = Raise e -> exists msg, e = ValueError msg.
Proof.
  unfold portfolio_stats, Np.dot, Np.vecmat.
  destruct (length w =? length mu)%nat; simpl;
    [|intros H; injection H as <-; eauto].
  destruct ((length w =? length cov)%nat && Np.rectangular cov)%bool; simpl;
    [|intros H; injection H as <-; eauto].
  match goal with |- context [(?a =? ?b)%nat] => destruct (a =? b)%nat end;
    simpl; [discriminate|intros H; injection H as <-; eauto].
Qed.

(** On shapes that do not fit together what is raised is a [ValueError]. *)
Lemma portfolio_stats_shape_error w mu cov rf :
  conformable w mu cov = false ->
  exists msg, portfolio_stats w mu cov rf = Raise (ValueError msg).
Proof.
  intros Hc.
  destruct (result_cases (portfolio_stats w mu cov rf)) as [Ht|[e He]].
  - apply portfolio_stats_ok_iff in Ht. congruence.
  - destruct (portfolio_stats_value_error _ _ _ _ _ He) as [msg ->]. eauto.
Qed.

(** With one weight too many for the expected returns, or a covariance
    matrix of another size, [portfolio_stats] raises numpy's [ValueError]
    and returns no triple. *)
Lemma portfolio_stats_raises_on_other_shapes :
  portfolio_stats [0.5; 0.5] [1; 2] [[1]] 0
  = Raise (ValueError "matmul: input operand has a mismatch in its core dimension") /\
  portfolio_stats [0.25; 0.25; 0.5] [1; 2] [[1; 0]; [0; 1]] 0
  = Raise (ValueError "matmul: input operand has a mismatch in its core dimension").
Proof. split; reflexivity. Qed.

(** C10 (amended): [portfolio_stats] returns its triple (return, volatility,
    Sharpe) exactly on arguments whose shapes fit together, [N] weights, [N]
    expected returns and an [N] by [N] covariance matrix; on all others it
    raises numpy's [ValueError].  On fitting shapes it never raises, the
    volatility being the square root of the variance [w @ cov @ w]: when that
    variance is negative the volatility is NaN, the test [port_vol == 0] is
    false, and the Sharpe ratio returned is NaN. *)
Theorem portfolio_stats_returns_iff_conformable w mu cov rf :
  ((exists t, portfolio_stats w mu cov rf = Ok t) <->
   conformable w mu cov = true) /\
  (conformable w mu cov = false ->
   exists msg, portfolio_stats w mu cov rf = Raise (ValueError msg)) /\
  (conformable w mu cov = true ->
   exists ret var vol sharpe,
     Np.dot w mu = Ok ret /\
     portfolio_variance w cov = Ok var /\
     portfolio_stats w mu cov rf = Ok (ret, vol, sharpe) /\
     vol = sqrt var /\
     ((var <? 0) = true ->
      vol = nan /\ (vol =? 0) = false /\ sharpe = nan)).
Proof.
  split; [apply portfolio_stats_ok_iff|]. split;
    [apply portfolio_stats_shape_error|].
  intros H. destruct (portfolio_stats_defined w mu cov rf H)
    as (ret & var & Hd & Hv & Hs).
  exists ret, var, (sqrt var), (if sqrt var =? 0 then 0 else (ret - rf) / sqrt var).
  split; [exact Hd|]. split; [exact Hv|]. split; [exact Hs|].
  split; [reflexivity|].
  intros Hneg. apply F64Facts.sqrt_negative in Hneg. rewrite Hneg.
  rewrite F64Facts.eqb_nan_l, F64Facts.div_nan_r. repeat split.
Qed.

Lemma portfolio_stats_returns_iff_conformable_witness :
  conformable [1] [0.5] [[-1]] = true /\
  exists ret var vol sharpe,
    Np.dot [1] [0.5] = Ok ret /\
    portfolio_variance [1] [[-1]] = Ok var /\
    portfolio_stats [1] [0.5] [[-1]] 0 = Ok (ret, vol, sharpe) /\
    vol = sqrt var /\
    ((var <? 0) = true ->
     vol = nan /\ (vol =? 0) = false /\ sharpe = nan).
Proof.
  split; [reflexivity|].
  apply (portfolio_stats_returns_iff_conformable [1] [0.5] [[-1]] 0).
  reflexivity.
Defined.

(** A one-asset portfolio on a covariance "matrix" with a negative entry: the
    variance is -1, and [portfolio_stats] returns NaN for both the volatility
    and the Sharpe ratio instead of raising. *)
Lemma negative_variance_does_not_raise :
  portfolio_variance [1] [[-1]] = Ok (-1) /\
  (-1 <? 0) = true /\
  portfolio_stats [1] [0.5] [[-1]] 0 = Ok (0.5, nan, nan).
Proof. repeat split. Qed.

(** C3 (amended): on conformable arguments whose variance [w @ cov @ w] is
    negative, [portfolio_stats] raises nothing: the square root is taken and
    the triple returned is the return [w @ mu], a NaN volatility and a NaN
    Sharpe ratio. *)
Theorem portfolio_stats_negative_variance_silent w mu cov rf var :
  conformable w mu cov = true ->
  portfolio_variance w cov = Ok var ->
  (var <? 0) = true ->
  ~ raises (portfolio_stats w mu cov rf) /\
  exists ret,
    Np.dot w mu = Ok ret /\
    portfolio_stats w mu cov rf = Ok (ret, nan, nan).
Proof.
  intros Hc Hv Hneg.
  destruct (portfolio_stats_defined w mu cov rf Hc) as (ret & var' & Hd & Hv' & Hs).
  rewrite Hv in Hv'. injection Hv' as <-.
  rewrite (F64Facts.sqrt_negative var Hneg) in Hs.
  rewrite F64Facts.eqb_nan_l, F64Facts.div_nan_r in Hs. split.
  - intros [e He]. congruence.
  - eauto.
Qed.

Lemma portfolio_stats_negative_variance_silent_witness :
  ~ raises (portfolio_stats [2] [0.5] [[-4]] 0.25) /\
  exists ret,
    Np.dot [2] [0.5] = Ok ret /\
    portfolio_stats [2] [0.5] [[-4]] 0.25 = Ok (ret, nan, nan).
Proof.
  apply (portfolio_stats_negative_variance_silent [2] [0.5] [[-4]] 0.25 (-16));
    reflexivity.
Defined.

(** With a NaN volatility the volatility is not strictly positive, yet the
    Sharpe ratio returned is NaN, not 0. *)
Lemma sharpe_not_zero_when_volatility_nan :
  portfolio_stats [1] [0.5] [[-1]] 0 = Ok (0.5, nan, nan) /\
  (0 <? nan) = false /\
  (nan =? 0) = false.
Proof. repeat split. Qed.

(** C6 (amended): on conformable arguments the Sharpe ratio returned is
    [(ret - rf) / vol] with [ret = w @ mu] and [vol = sqrt (w @ cov @ w)]
    whenever [vol] is strictly positive, it is 0 whenever [vol] equals zero,
    and in the one remaining case, a NaN volatility, it is NaN. *)
Theorem portfolio_stats_sharpe w mu cov rf :
  conformable w mu cov = true ->
  exists ret var sharpe,
    Np.dot w mu = Ok ret /\
    portfolio_variance w cov = Ok var /\
    portfolio_stats w mu cov rf = Ok (ret, sqrt var, sharpe) /\
    ((0 <? sqrt var) = true -> sharpe = (ret - rf) / sqrt var) /\
    ((sqrt var =? 0) = true -> sharpe = 0) /\
    ((0 <? sqrt var) = false -> (sqrt var =? 0) = false ->
     sqrt var = nan /\ sharpe = nan).
Proof.
  intros Hc.
  destruct (portfolio_stats_defined w mu cov rf Hc) as (ret & var & Hd & Hv & Hs).
  exists ret, var, (if sqrt var =? 0 then 0 else (ret - rf) / sqrt var).
  repeat (split; [assumption|]). repeat split.
  - intros Hpos. now rewrite (F64Facts.ltb_zero_eqb _ Hpos).
  - intros ->. reflexivity.
  - destruct (F64Facts.sqrt_range var) as [E|[E|E]]; congruence.
  - destruct (F64Facts.sqrt_range var) as [E|[E|E]]; try congruence.
    rewrite E, F64Facts.eqb_nan_l. apply F64Facts.div_nan_r.
Qed.

Lemma portfolio_stats_sharpe_witness :
  conformable [0.5; 0.5] [1; 0.5] [[4; 0]; [0; 4]] = true /\
  exists ret var sharpe,
    Np.dot [0.5; 0.5] [1; 0.5] = Ok ret /\
    portfolio_variance [0.5; 0.5] [[4; 0]; [0; 4]] = Ok var /\
    portfolio_stats [0.5; 0.5] [1; 0.5] [[4; 0]; [0; 4]] 0.25
      = Ok (ret, sqrt var, sharpe) /\
    ((0 <? sqrt var) = true -> sharpe = (ret - 0.25) / sqrt var) /\
    ((sqrt var =? 0) = true -> sharpe = 0) /\
    ((0 <? sqrt var) = false -> (sqrt var =? 0) = false ->
     sqrt var = nan /\ sharpe = nan).
Proof.
  split; [reflexivity|].
  apply (portfolio_stats_sharpe [0.5; 0.5] [1; 0.5] [[4; 0]; [0; 4]] 0.25).
  reflexivity.
Defined.

(** ** Return Series Builder *)

Section Map2.

Context {A B C : Type} (f : A -> B -> C).

Lemma map2_firstn (l : list A) (l' : list B) :
  map2 f l (firstn (length l) l') = map2 f l l'.
Proof.
  revert l'. induction l as [|a l IH]; intros [|b l']; simpl; auto.
  now rewrite IH.
Qed.

Lemma map2_nth (l : list A) (l' : list B) i da db dc :
  (i < length l)%nat -> (i < length l')%nat ->
  nth i (map2 f l l') dc = f (nth i l da) (nth i l' db).
Proof.
  revert l' i. induction l as [|a l IH]; intros [|b l'] [|i]; simpl;
    try lia; auto.
  intros H1 H2. apply IH; lia.
Qed.

End Map2.

Lemma pct_rows_shift (p : list float) (rs : list (list float)) :
  map2 (map2 simple_return) rs (firstn (length rs) (p :: rs)) = pct_rows p rs.
Proof.
  revert p. induction rs as [|r rs IH]; intros p; [reflexivity|].
  simpl. f_equal. apply IH.
Qed.

Lemma pct_rows_length p rs : length (pct_rows p rs) = length rs.
Proof.
  revert p. induction rs as [|r rs IH]; intros p; simpl; auto.
Qed.

Lemma pct_rows_nth p rs t :
  (t < length rs)%nat ->
  nth t (pct_rows p rs) [] =
  map2 simple_return (nth t rs []) (nth t (p :: rs) []).
Proof.
  revert p t. induction rs as [|r rs IH]; intros p [|t]; simpl; try lia; auto.
  intros H. apply (IH r t). lia.
Qed.

Lemma pct_change_rows_FillNone df :
  Pd.rows (Pd.pct_change Pd.FillNone df) =
  pct_rows (repeat nan (Pd.ncols df)) (Pd.rows df).
Proof. apply pct_rows_shift. Qed.

Lemma pct_change_rows_FillPad df :
  Pd.rows (Pd.pct_change Pd.FillPad df) =
  pct_rows (repeat nan (Pd.ncols df)) (Pd.rows (Pd.ffill df)).
Proof. apply pct_rows_shift. Qed.

(** The first row of [pct_change] is missing throughout. *)
Lemma return_on_missing_row r k :
  existsb F64.notna (map2 simple_return r (repeat nan k)) = false.
Proof.
  revert k. induction r as [|a r IH]; intros [|k]; simpl; auto.
  unfold simple_return at 1. rewrite F64Facts.div_nan_r, F64Facts.sub_nan_l. simpl.
  apply IH.
Qed.

(** Forward filling changes nothing where nothing is missing. *)
Lemma fill_row_observed last r :
  length last = length r -> Forall (fun a => F64.notna a = true) r ->
  Pd.fill_row last r = r.
Proof.
  revert last. induction r as [|a r IH]; intros [|l last]; simpl;
    try discriminate; auto.
  intros Hl Hr. inversion Hr as [|? ? Ha Hr']; subst.
  unfold Pd.fill_row in *. simpl.
  unfold F64.notna in Ha. apply negb_true_iff in Ha. rewrite Ha.
  f_equal. apply IH; auto.
Qed.

Lemma ffill_rows_observed last rs :
  Forall (fun r => length r = length last /\
                   Forall (fun a => F64.notna a = true) r) rs ->
  Pd.ffill_rows last rs = rs.
Proof.
  revert last. induction rs as [|r rs IH]; intros last H; [reflexivity|].
  inversion H as [|? ? [Hl Hr] H']; subst. simpl.
  rewrite (fill_row_observed last r) by auto. f_equal.
  apply IH. rewrite <- Hl in H'. exact H'.
Qed.

Lemma valid_row_inv n r :
  valid_row n r = true ->
  length r = n /\ Forall (fun a => F64.finite_pos a = true) r.
Proof.
  unfold valid_row. rewrite andb_true_iff, Nat.eqb_eq, forallb_forall, Forall_forall.
  tauto.
Qed.

Lemma return_row_observed n r prev :
  (1 <= n)%nat -> valid_row n r = true -> valid_row n prev = true ->
  existsb F64.notna (map2 simple_return r prev) = true.
Proof.
  intros Hn Hr Hp.
  apply valid_row_inv in Hr. destruct Hr as [Lr Fr].
  apply valid_row_inv in Hp. destruct Hp as [Lp Fp].
  destruct r as [|a r]; [simpl in Lr; lia|].
  destruct prev as [|b prev]; [simpl in Lp; lia|].
  inversion Fr; inversion Fp; subst. simpl.
  unfold simple_return at 1. now rewrite F64Facts.simple_return_notna.
Qed.

Lemma pct_rows_all_kept n p rs :
  (1 <= n)%nat -> valid_row n p = true -> forallb (valid_row n) rs = true ->
  filter (existsb F64.notna) (pct_rows p rs) = pct_rows p rs.
Proof.
  intros Hn. revert p. induction rs as [|r rs IH]; intros p Hp Hrs; [reflexivity|].
  simpl in Hrs. apply andb_true_iff in Hrs. destruct Hrs as [Hr Hrs].
  simpl. rewrite (return_row_observed n r p Hn Hr Hp). f_equal. now apply IH.
Qed.

Lemma ffill_valid df : valid_prices df = true -> Pd.ffill df = df.
Proof.
  unfold valid_prices. rewrite andb_true_iff, forallb_forall. intros [_ H].
  destruct df as [n rs]. unfold Pd.ffill. simpl in *. f_equal.
  apply ffill_rows_observed. apply Forall_forall. intros r Hr.
  apply H, valid_row_inv in Hr. destruct Hr as [Hl Hf].
  rewrite repeat_length. split; [exact Hl|].
  eapply Forall_impl; [|exact Hf]. apply F64Facts.finite_pos_notna.
Qed.

Lemma compute_daily_returns_valid fm df :
  valid_prices df = true ->
  Pd.rows (compute_daily_returns fm df) =
  match Pd.rows df with
  | [] => []
  | r0 :: rest => pct_rows r0 rest
  end.
Proof.
  intros Hv.
  assert (E : Pd.rows (Pd.pct_change fm df) =
              pct_rows (repeat nan (Pd.ncols df)) (Pd.rows df)).
  { destruct fm; [apply pct_change_rows_FillNone|].
    rewrite pct_change_rows_FillPad. now rewrite ffill_valid. }
  change (Pd.rows (compute_daily_returns fm df))
    with (filter (existsb F64.notna) (Pd.rows (Pd.pct_change fm df))).
  rewrite E.
  unfold valid_prices in Hv. apply andb_true_iff in Hv. destruct Hv as [Hn Hrs].
  apply Nat.leb_le in Hn.
  destruct (Pd.rows df) as [|r0 rest]; [reflexivity|].
  simpl in Hrs. apply andb_true_iff in Hrs. destruct Hrs as [H0 Hrest].
  simpl. rewrite return_on_missing_row.
  now apply (pct_rows_all_kept (Pd.ncols df)).
Qed.

Lemma forallb_nth {A} (f : A -> bool) (l : list A) i d :
  forallb f l = true -> (i < length l)%nat -> f (nth i l d) = true.
Proof.
  intros H Hi. rewrite forallb_forall in H. apply H, nth_In, Hi.
Qed.

(** C9: on a valid price table of [T] timestamps the Return Series Builder
    yields [T - 1] rows, one cell per asset, and the cell of asset [i] at
    position [t] is [P_{t+1} / P_t - 1]. *)
Theorem compute_daily_returns_length_and_formula fm prices :
  valid_prices prices = true ->
  let returns := compute_daily_returns fm prices in
  Pd.ncols returns = Pd.ncols prices /\
  length (Pd.rows returns) = (length (Pd.rows prices) - 1)%nat /\
  (forall i, length (Pd.column i returns)
             = (length (Pd.column i prices) - 1)%nat) /\
  forall t i,
    (S t < length (Pd.rows prices))%nat -> (i < Pd.ncols prices)%nat ->
    Pd.cell t i returns = Pd.cell (S t) i prices / Pd.cell t i prices - 1.
Proof.
  intros Hv returns.
  pose proof (compute_daily_returns_valid fm prices Hv) as E.
  fold returns in E.
  assert (Hlen : length (Pd.rows returns) = (length (Pd.rows prices) - 1)%nat).
  { rewrite E. destruct (Pd.rows prices) as [|r0 rest]; [reflexivity|].
    rewrite pct_rows_length. simpl. lia. }
  split; [reflexivity|]. split; [exact Hlen|]. split.
  { intros i. unfold Pd.column. now rewrite !length_map. }
  intros t i Ht Hi. unfold Pd.cell. rewrite E.
  unfold valid_prices in Hv. apply andb_true_iff in Hv. destruct Hv as [_ Hrs].
  destruct (Pd.rows prices) as [|r0 rest] eqn:R; [simpl in Ht; lia|].
  simpl in Ht.
  rewrite pct_rows_nth by lia.
  assert (L1 : length (nth t rest []) = Pd.ncols prices).
  { apply (valid_row_inv _ _ (forallb_nth _ (r0 :: rest) (S t) [] Hrs ltac:(simpl; lia))). }
  assert (L0 : length (nth t (r0 :: rest) []) = Pd.ncols prices).
  { apply (valid_row_inv _ _ (forallb_nth _ (r0 :: rest) t [] Hrs ltac:(simpl; lia))). }
  rewrite (map2_nth simple_return _ _ i nan nan nan) by lia.
  reflexivity.
Qed.

Lemma compute_daily_returns_length_and_formula_witness :
  valid_prices (Pd.mkDF 2 [[1; 4]; [2; 5]; [3; 4]]) = true /\
  let returns :=
    compute_daily_returns Pd.FillPad (Pd.mkDF 2 [[1; 4]; [2; 5]; [3; 4]]) in
  Pd.ncols returns = 2%nat /\
  length (Pd.rows returns) = 2%nat /\
  (forall i, length (Pd.column i returns) = 2%nat) /\
  forall t i,
    (S t < 3)%nat -> (i < 2)%nat ->
    Pd.cell t i returns
    = Pd.cell (S t) i (Pd.mkDF 2 [[1; 4]; [2; 5]; [3; 4]])
      / Pd.cell t i (Pd.mkDF 2 [[1; 4]; [2; 5]; [3; 4]]) - 1.
Proof.
  split; [reflexivity|].
  apply (compute_daily_returns_length_and_formula
           Pd.FillPad (Pd.mkDF 2 [[1; 4]; [2; 5]; [3; 4]])).
  reflexivity.
Defined.

Lemma dropna_all_rows df r :
  In r (Pd.rows (Pd.dropna_all df)) <->
  In r (Pd.rows df) /\ existsb F64.notna r = true.
Proof. apply filter_In. Qed.

Lemma download_prices_inv data prices :
  download_prices data = Ok prices ->
  exists raw, selected_prices data = Some raw /\ prices = Pd.dropna_all raw.
Proof.
  unfold download_prices, selected_prices.
  destruct (download_empty data); [discriminate|].
  destruct (getitem "Adj Close" data) as [sel|];
    [|destruct (getitem "Close" data) as [sel|]];
    simpl; intros H; try discriminate; injection H as <-; eauto.
Qed.

Lemma single_row_returns_dropped fm n r :
  Pd.rows (compute_daily_returns fm (Pd.mkDF n [r])) = [].
Proof.
  change (Pd.rows (compute_daily_returns fm (Pd.mkDF n [r])))
    with (filter (existsb F64.notna) (Pd.rows (Pd.pct_change fm (Pd.mkDF n [r])))).
  destruct fm;
    [rewrite pct_change_rows_FillNone | rewrite pct_change_rows_FillPad];
    simpl; now rewrite return_on_missing_row.
Qed.

Lemma ffill_rows_length last rs :
  length (Pd.ffill_rows last rs) = length rs.
Proof.
  revert last. induction rs as [|r rs IH]; intros last; simpl; auto.
Qed.

Lemma pct_change_length fm df :
  length (Pd.rows (Pd.pct_change fm df)) = length (Pd.rows df).
Proof.
  destruct fm;
    [rewrite pct_change_rows_FillNone | rewrite pct_change_rows_FillPad];
    rewrite pct_rows_length; [reflexivity|].
  apply ffill_rows_length.
Qed.

(** Filtering a sequence is reading it at the positions that pass. *)
Lemma filter_by_position {A} (f : A -> bool) (l : list A) d :
  filter f l =
  map (fun t => nth t l d) (filter (fun t => f (nth t l d)) (seq 0 (length l))).
Proof.
  induction l as [|a l IH]; [reflexivity|].
  cbn [length seq]. rewrite <- seq_shift. cbn [filter nth].
  rewrite filter_map_swap.
  destruct (f a); cbn [map]; rewrite map_map; cbn [nth]; now rewrite <- IH.
Qed.

Lemma filter_seq_increasing (f : nat -> bool) a n :
  StronglySorted lt (filter f (seq a n)).
Proof.
  revert a. induction n as [|n IH]; intros a; [constructor|].
  cbn [seq filter]. destruct (f a); [|apply IH].
  constructor; [apply IH|].
  apply Forall_forall. intros t Ht.
  apply filter_In in Ht. destruct Ht as [Ht _]. apply in_seq in Ht. lia.
Qed.

Lemma kept_timestamps_rows rs :
  filter (existsb F64.notna) rs
  = map (fun t => nth t rs []) (kept_timestamps rs).
Proof. apply filter_by_position. Qed.

Lemma kept_timestamps_spec rs t :
  In t (kept_timestamps rs) <->
  (t < length rs)%nat /\ existsb F64.notna (nth t rs []) = true.
Proof.
  unfold kept_timestamps. rewrite filter_In, in_seq. intuition lia.
Qed.

(** A timestamp at which one of two assets has no price survives both
    [download_prices] and [compute_daily_returns]; an asset without a single
    price leaves a return table whose column for it is missing throughout; a
    single-timestamp table gives an empty return table.  Nothing is raised. *)
Lemma partially_missing_row_is_kept :
  download_prices (two_assets "Adj Close" [1; 2; 3] [nan; 4; 6])
  = Ok (Pd.mkDF 2 [[1; nan]; [2; 4]; [3; 6]]) /\
  compute_daily_returns Pd.FillNone (Pd.mkDF 2 [[1; nan]; [2; 4]; [3; 6]])
  = Pd.mkDF 2 [[1; nan]; [0.5; 0.5]] /\
  compute_daily_returns Pd.FillPad (Pd.mkDF 2 [[1; nan]; [2; 4]; [3; 6]])
  = Pd.mkDF 2 [[1; nan]; [0.5; 0.5]] /\
  compute_daily_returns Pd.FillNone (Pd.mkDF 2 [[1; nan]; [2; nan]; [3; nan]])
  = Pd.mkDF 2 [[1; nan]; [0.5; nan]] /\
  download_prices (two_assets "Adj Close" [1] [2])
  = Ok (Pd.mkDF 2 [[1; 2]]) /\
  compute_daily_returns Pd.FillNone (Pd.mkDF 2 [[1; 2]]) = Pd.mkDF 2 [].
Proof. repeat split. Qed.

(** C2 (amended): the Return Series Builder drops a timestamp only when every
    asset is missing at it.  The prices [download_prices] returns are the rows
    of the selected table at the timestamps with at least one observed cell,
    each such timestamp once and in order; the return table is made in the
    same way of the rows of [pct_change], which has one row per timestamp of
    the prices; and a price table of fewer than two timestamps gives an empty
    return table rather than an error. *)
Theorem return_builder_drops_only_all_missing data fm prices :
  download_prices data = Ok prices ->
  (exists raw,
     selected_prices data = Some raw /\
     Pd.ncols prices = Pd.ncols raw /\
     Pd.rows prices = filter (existsb F64.notna) (Pd.rows raw) /\
     Pd.rows prices
     = map (fun t => nth t (Pd.rows raw) []) (kept_timestamps (Pd.rows raw))) /\
  (let changes := Pd.rows (Pd.pct_change fm prices) in
   let returns := compute_daily_returns fm prices in
   Pd.ncols returns = Pd.ncols prices /\
   length changes = length (Pd.rows prices) /\
   Pd.rows returns = filter (existsb F64.notna) changes /\
   Pd.rows returns = map (fun t => nth t changes []) (kept_timestamps changes)) /\
  (forall rs t,
     In t (kept_timestamps rs) <->
     (t < length rs)%nat /\ existsb F64.notna (nth t rs []) = true) /\
  (forall rs, StronglySorted lt (kept_timestamps rs)) /\
  ((length (Pd.rows prices) < 2)%nat ->
   Pd.rows (compute_daily_returns fm prices) = []).
Proof.
  intros Hd. split; [|split; [|split; [|split]]].
  - destruct (download_prices_inv data prices Hd) as (raw & Hsel & ->).
    exists raw. split; [exact Hsel|]. split; [reflexivity|].
    split; [reflexivity|]. apply kept_timestamps_rows.
  - cbv zeta. split; [reflexivity|]. split; [apply pct_change_length|].
    split; [reflexivity|]. apply kept_timestamps_rows.
  - apply kept_timestamps_spec.
  - intros rs. apply filter_seq_increasing.
  - intros Hlen. destruct prices as [n rs].
    destruct rs as [|r [|r' rs]]; simpl in Hlen; try lia.
    + destruct fm; reflexivity.
    + apply single_row_returns_dropped.
Qed.

Lemma return_builder_drops_only_all_missing_witness :
  download_prices (two_assets "Close" [1; nan; 1; 2] [nan; nan; nan; 4])
  = Ok (Pd.mkDF 2 [[1; nan]; [1; nan]; [2; 4]]) /\
  kept_timestamps [[1; nan]; [nan; nan]; [1; nan]; [2; 4]] = [0; 2; 3]%nat /\
  exists raw,
    selected_prices (two_assets "Close" [1; nan; 1; 2] [nan; nan; nan; 4])
    = Some raw /\
    Pd.ncols (Pd.mkDF 2 [[1; nan]; [1; nan]; [2; 4]]) = Pd.ncols raw /\
    Pd.rows (Pd.mkDF 2 [[1; nan]; [1; nan]; [2; 4]])
    = filter (existsb F64.notna) (Pd.rows raw) /\
    Pd.rows (Pd.mkDF 2 [[1; nan]; [1; nan]; [2; 4]])
    = map (fun t => nth t (Pd.rows raw) []) (kept_timestamps (Pd.rows raw)).
Proof.
  split; [reflexivity|]. split; [reflexivity|].
  apply (return_builder_drops_only_all_missing
           (two_assets "Close" [1; nan; 1; 2] [nan; nan; nan; 4])
           Pd.FillNone (Pd.mkDF 2 [[1; nan]; [1; nan]; [2; 4]])).
  reflexivity.
Defined.

(** ** Moment Estimator *)

Lemma nth_map_seq {A} (f : nat -> A) n i d :
  (i < n)%nat -> nth i (map f (seq 0 n)) d = f i.
Proof.
  intros H.
  rewrite (nth_indep _ d (f 0%nat)) by (now rewrite length_map, length_seq).
  rewrite map_nth, seq_nth by assumption. reflexivity.
Qed.

Section MapM.

Context {A B : Type} (f : A -> result B).

Lemma mapM_length l l' : mapM f l = Ok l' -> length l' = length l.
Proof.
  revert l'. induction l as [|a l IH]; intros l' H; simpl in H.
  - now injection H as <-.
  - destruct (f a) as [b|e]; simpl in H; [|discriminate].
    destruct (mapM f l) as [bs|e]; simpl in H; [|discriminate].
    injection H as <-. simpl. f_equal. now apply IH.
Qed.


(** The exception of a traversal is that of the first element that raises. *)
Lemma mapM_raise l e da :
  mapM f l = Raise e <->
  exists i, (i < length l)%nat /\ f (nth i l da) = Raise e /\
            forall j, (j < i)%nat -> exists b, f (nth j l da) = Ok b.
Proof.
  induction l as [|a l IH]; simpl.
  - split; [discriminate|]. intros (i & Hi & _). lia.
  - destruct (f a) as [b|e0] eqn:Ea; simpl.
    + destruct (mapM f l) as [bs|e1]; simpl.
      * split; [discriminate|]. intros (i & Hi & He & Hj).
        destruct i as [|i]; [congruence|].
        assert (R : @Raise (list B) e = Raise e) by reflexivity.
        enough (@Ok (list B) bs = Raise e) by discriminate.
        apply IH. exists i. repeat split; [lia|exact He|].
        intros j Hlt. apply (Hj (S j)). lia.
      * split.
        -- intros H. injection H as ->. apply proj1 in IH.
           destruct (IH eq_refl) as (i & Hi & He & Hj).
           exists (S i). repeat split; [lia|exact He|].
           intros [|j] Hlt; [eauto|]. apply Hj. lia.
        -- intros (i & Hi & He & Hj). destruct i as [|i]; [congruence|].
           apply IH. exists i. repeat split; [lia|exact He|].
           intros j Hlt. apply (Hj (S j)). lia.
    + split.
      * intros H. injection H as ->. exists 0%nat.
        repeat split; [lia|exact Ea|]. intros j Hlt. lia.
      * intros (i & Hi & He & Hj). destruct i as [|i]; [congruence|].
        destruct (Hj 0%nat ltac:(lia)) as [b Hb]. simpl in Hb. congruence.
Qed.

End MapM.


Lemma annualize_returns_raise float_pow m n e :
  annualize_returns float_pow m n = Raise e <-> float_pow (1 + m) n = Raise e.
Proof.
  unfold annualize_returns. destruct (float_pow (1 + m) n) as [p|e0]; simpl;
    split; intros H; try discriminate; now injection H as <-.
Qed.

Lemma estimate_moments_ok float_pow sample_cov returns mu sigma :
  estimate_moments float_pow sample_cov returns = Ok (mu, sigma) <->
  mapM (fun m => annualize_returns float_pow m default_trading_days)
       (Pd.mean returns) = Ok mu /\
  sigma = annualize_covariance (Pd.cov sample_cov returns) default_trading_days.
Proof.
  unfold estimate_moments. cbv zeta.
  destruct (mapM _ (Pd.mean returns)) as [mu'|e]; simpl.
  - split; [intros H; injection H as <- <-; auto|].
    intros [H ->]. now injection H as <-.
  - split; [discriminate|]. intros [H _]. discriminate.
Qed.

Lemma estimate_moments_raise float_pow sample_cov returns e :
  estimate_moments float_pow sample_cov returns = Raise e <->
  mapM (fun m => annualize_returns float_pow m default_trading_days)
       (Pd.mean returns) = Raise e.
Proof.
  unfold estimate_moments. cbv zeta.
  destruct (mapM _ (Pd.mean returns)) as [mu'|e0]; simpl;
    split; intros H; try discriminate; now injection H as <-.
Qed.

Lemma mean_length returns : length (Pd.mean returns) = Pd.ncols returns.
Proof. unfold Pd.mean. now rewrite length_map, length_seq. Qed.





Lemma annualize_covariance_entry m P i j :
  (i < length m)%nat -> (j < length (nth i m []))%nat ->
  entry i j (annualize_covariance m P) = entry i j m * F64.of_int P.
Proof.
  intros Hi Hj. unfold entry, annualize_covariance.
  rewrite (nth_indep _ [] (map (fun c => c * F64.of_int P) []))
    by (now rewrite length_map).
  rewrite map_nth.
  rewrite (nth_indep _ nan (nan * F64.of_int P)) by (now rewrite length_map).
  now rewrite (map_nth (fun c => c * F64.of_int P)).
Qed.

(** ** Allocator *)

Lemma equal_weights n :
  Np.divide (Np.ones n) (F64.of_nat n) = repeat (1 / F64.of_nat n) n.
Proof. unfold Np.divide, Np.ones. now rewrite map_repeat. Qed.

Lemma unit_bounds n :
  map (fun _ : nat => (0, 1)) (seq 0 n) = repeat (0, 1) n.
Proof. now rewrite map_const, length_seq. Qed.

Lemma negative_sharpe_negates w mu cov rf ret vol sharpe :
  portfolio_stats w mu cov rf = Ok (ret, vol, sharpe) ->
  negative_sharpe w mu cov rf = Ok (- sharpe).
Proof. unfold negative_sharpe. now intros ->. Qed.

Lemma negative_sharpe_raises w mu cov rf e :
  portfolio_stats w mu cov rf = Raise e ->
  negative_sharpe w mu cov rf = Raise e.
Proof. unfold negative_sharpe. now intros ->. Qed.

(** [optimize_sharpe] in terms of the solver's answer to the problem. *)
Lemma optimize_sharpe_unfold minimize mu cov rf :
  optimize_sharpe minimize mu cov rf =
  match minimize (sharpe_problem mu cov rf) with
  | Ok res =>
      if success res then Ok (x res)
      else Raise (RuntimeError ("Optimization failed: " ++ message res))
  | Raise e => Raise e
  end.
Proof.
  unfold optimize_sharpe.
  destruct (minimize (sharpe_problem mu cov rf)) as [res|e]; simpl;
    [|reflexivity].
  now destruct (success res).
Qed.

(** C7: the problem [optimize_sharpe] hands to the minimizer starts from the
    equal-weight vector (1/N, ..., 1/N), carries the one equality constraint
    [sum(w) - 1], bounds every weight to [0, 1], and has as objective the
    negated Sharpe ratio of [portfolio_stats], raising what [portfolio_stats]
    raises.  That problem is what the minimizer receives: whatever a solver
    reads off the problem it is called on, be it a point, a message or an
    exception, [optimize_sharpe] hands on what it reads off this problem, and
    the outcome of [optimize_sharpe] is decided by the solver's answer to
    it. *)
Theorem sharpe_problem_setup mu cov rf :
  let n := length mu in
  let pb := sharpe_problem mu cov rf in
  (forall minimize,
     optimize_sharpe minimize mu cov rf =
     match minimize pb with
     | Ok res =>
         if success res then Ok (x res)
         else Raise (RuntimeError ("Optimization failed: " ++ message res))
     | Raise e => Raise e
     end) /\
  (forall (point : Problem -> Np.vector) (msg : string),
     optimize_sharpe (fun p => Ok (mkResult true msg (point p))) mu cov rf
     = Ok (point pb)) /\
  (forall (describe : Problem -> string) (w : Np.vector),
     optimize_sharpe (fun p => Ok (mkResult false (describe p) w)) mu cov rf
     = Raise (RuntimeError ("Optimization failed: " ++ describe pb))) /\
  (forall failure : Problem -> exn,
     optimize_sharpe (fun p => Raise (failure p)) mu cov rf
     = Raise (failure pb)) /\
  pb_x0 pb = repeat (1 / F64.of_nat n) n /\
  length (pb_x0 pb) = n /\
  (forall i, (i < n)%nat -> nth i (pb_x0 pb) nan = 1 / F64.of_nat n) /\
  ctype (pb_constraints pb) = "eq"%string /\
  (forall w, cfun (pb_constraints pb) w = Np.sum w - 1) /\
  pb_bounds pb = repeat (0, 1) n /\
  pb_method pb = "SLSQP"%string /\
  pb_args pb = (mu, cov, rf) /\
  (forall w, objective pb w = negative_sharpe w mu cov rf) /\
  (forall w ret vol sharpe,
     portfolio_stats w mu cov rf = Ok (ret, vol, sharpe) ->
     objective pb w = Ok (- sharpe)) /\
  (forall w e,
     portfolio_stats w mu cov rf = Raise e -> objective pb w = Raise e).
Proof.
  intros n pb.
  assert (X0 : pb_x0 pb = repeat (1 / F64.of_nat n) n) by apply equal_weights.
  split; [intros minimize; apply optimize_sharpe_unfold|].
  split; [reflexivity|]. split; [reflexivity|]. split; [reflexivity|].
  split; [exact X0|]. split; [rewrite X0; apply repeat_length|].
  split; [intros i Hi; rewrite X0; now apply nth_repeat_lt|].
  split; [reflexivity|]. split; [reflexivity|].
  split; [apply unit_bounds|]. split; [reflexivity|]. split; [reflexivity|].
  split; [reflexivity|]. split.
  - intros w ret vol sharpe. apply negative_sharpe_negates.
  - intros w e. apply negative_sharpe_raises.
Qed.

Lemma sharpe_problem_setup_witness :
  let pb := sharpe_problem [1; 0.5] [[4; 0]; [0; 12]] 0.25 in
  optimize_sharpe (fun p => Ok (mkResult true EmptyString (pb_x0 p)))
                  [1; 0.5] [[4; 0]; [0; 12]] 0.25
  = Ok [0.5; 0.5] /\
  optimize_sharpe (fun p => Ok (mkResult false (pb_method p) []))
                  [1; 0.5] [[4; 0]; [0; 12]] 0.25
  = Raise (RuntimeError "Optimization failed: SLSQP") /\
  pb_bounds pb = [(0, 1); (0, 1)] /\
  cfun (pb_constraints pb) [0.5; 0.5] = 0 /\
  portfolio_stats [0.5; 0.5] [1; 0.5] [[4; 0]; [0; 12]] 0.25
  = Ok (0.75, 2, 0.25) /\
  objective pb [0.5; 0.5] = Ok (-0.25).
Proof.
  intros pb.
  destruct (sharpe_problem_setup [1; 0.5] [[4; 0]; [0; 12]] 0.25)
    as (_ & Hpt & Hmsg & _ & _ & _ & _ & _ & Hc & Hb & _ & _ & _ & Hobj & _).
  split; [apply (Hpt pb_x0 EmptyString)|].
  split; [apply (Hmsg pb_method [])|].
  split; [exact Hb|]. split; [apply (Hc [0.5; 0.5])|].
  split; [reflexivity|].
  apply (Hobj [0.5; 0.5] 0.75 2 0.25). reflexivity.
Defined.

Lemma conformable_weights w w' mu cov :
  length w = length w' -> conformable w mu cov = conformable w' mu cov.
Proof. intros H. unfold conformable. now rewrite H. Qed.

Lemma start_length mu cov rf :
  length (pb_x0 (sharpe_problem mu cov rf)) = length mu.
Proof.
  unfold sharpe_problem. simpl. rewrite equal_weights. apply repeat_length.
Qed.

Lemma accepting_solver_evaluates_start : evaluates_start accepting_solver.
Proof. intros pb e H. unfold accepting_solver. now rewrite H. Qed.

Lemma failing_solver_evaluates_start : evaluates_start failing_solver.
Proof. intros pb e H. unfold failing_solver. now rewrite H. Qed.

(** Two expected returns against a covariance matrix for one asset: the
    objective raises numpy's [ValueError] at the starting point.  A solver
    that evaluates it there returns no result, so it reports no failure, and
    [optimize_sharpe] raises all the same: the [ValueError], not the
    [RuntimeError] of a reported failure. *)
Lemma objective_error_escapes_optimize_sharpe :
  objective (sharpe_problem [1; 2] [[1]] 0)
            (pb_x0 (sharpe_problem [1; 2] [[1]] 0))
  = Raise (ValueError "matmul: input operand has a mismatch in its core dimension") /\
  (forall minimize, evaluates_start minimize ->
     (forall res, minimize (sharpe_problem [1; 2] [[1]] 0) <> Ok res) /\
     optimize_sharpe minimize [1; 2] [[1]] 0
     = Raise (ValueError "matmul: input operand has a mismatch in its core dimension")) /\
  evaluates_start accepting_solver /\
  optimize_sharpe accepting_solver [1; 2] [[1]] 0
  = Raise (ValueError "matmul: input operand has a mismatch in its core dimension").
Proof.
  split; [reflexivity|]. split; [|split].
  - intros minimize Hm.
    pose proof (Hm (sharpe_problem [1; 2] [[1]] 0) _ eq_refl) as E.
    split; [intros res; rewrite E; discriminate|].
    rewrite optimize_sharpe_unfold. now rewrite E.
  - apply accepting_solver_evaluates_start.
  - reflexivity.
Qed.

(** C8 (amended): [optimize_sharpe] raises the error of a failed
    optimization, a [RuntimeError] carrying the solver's message, exactly when
    the solver returns a result that reports failure, and it returns a weight
    vector, the solver's point as it is, exactly when the solver returns a
    result that reports success.  An exception raised during the solver's
    run is not caught: it is what [optimize_sharpe] raises.  So with a solver
    that evaluates the objective at the starting point, moments whose shapes
    do not fit together make [optimize_sharpe] raise numpy's [ValueError]. *)
Theorem optimize_sharpe_outcomes minimize mu cov rf :
  let pb := sharpe_problem mu cov rf in
  (forall e,
     optimize_sharpe minimize mu cov rf = Raise e <->
     (exists res, minimize pb = Ok res /\ success res = false /\
        e = RuntimeError ("Optimization failed: " ++ message res)) \/
     minimize pb = Raise e) /\
  (forall w,
     optimize_sharpe minimize mu cov rf = Ok w <->
     exists res, minimize pb = Ok res /\ success res = true /\ w = x res) /\
  (evaluates_start minimize ->
   forall e, objective pb (pb_x0 pb) = Raise e ->
             optimize_sharpe minimize mu cov rf = Raise e) /\
  (evaluates_start minimize ->
   conformable mu mu cov = false ->
   exists msg, optimize_sharpe minimize mu cov rf = Raise (ValueError msg)).
Proof.
  intros pb.
  assert (Hstart : evaluates_start minimize ->
            forall e, objective pb (pb_x0 pb) = Raise e ->
                      optimize_sharpe minimize mu cov rf = Raise e).
  { intros Hm e He. rewrite optimize_sharpe_unfold. fold pb.
    now rewrite (Hm pb e He). }
  split; [|split; [|split; [exact Hstart|]]].
  - intros e. rewrite optimize_sharpe_unfold. fold pb.
    destruct (minimize pb) as [res|e0].
    + destruct (success res) eqn:Hs; split.
      * discriminate.
      * intros [(res' & H & Hf & _)|H]; [|discriminate].
        injection H as <-. congruence.
      * intros H. injection H as <-. left. eauto.
      * intros [(res' & H & _ & ->)|H]; [|discriminate].
        now injection H as <-.
    + split; [intros H; injection H as ->; now right|].
      intros [(res' & H & _)|H]; [discriminate|now injection H as ->].
  - intros w. rewrite optimize_sharpe_unfold. fold pb.
    destruct (minimize pb) as [res|e0].
    + destruct (success res) eqn:Hs; split.
      * intros H. injection H as <-. eauto.
      * intros (res' & H & _ & ->). now injection H as <-.
      * discriminate.
      * intros (res' & H & Ht & _). injection H as <-. congruence.
    + split; [discriminate|]. intros (res' & H & _). discriminate.
  - intros Hm Hc.
    rewrite <- (conformable_weights (pb_x0 pb) mu mu cov) in Hc
      by apply start_length.
    destruct (portfolio_stats_shape_error _ _ _ rf Hc) as [msg Hs].
    exists msg. apply (Hstart Hm).
    change (objective pb (pb_x0 pb))
      with (negative_sharpe (pb_x0 pb) mu cov rf).
    now apply negative_sharpe_raises.
Qed.

Lemma optimize_sharpe_outcomes_witness :
  optimize_sharpe failing_solver [1; 0.5] [[4; 0]; [0; 4]] 0.25
  = Raise (RuntimeError "Optimization failed: Iteration limit reached") /\
  optimize_sharpe accepting_solver [1; 0.5] [[4; 0]; [0; 4]] 0.25
  = Ok [0.5; 0.5] /\
  exists msg,
    optimize_sharpe failing_solver [1; 0.5] [[4; 0; 0]; [0; 4; 0]] 0.25
    = Raise (ValueError msg).
Proof.
  split; [|split].
  - destruct (optimize_sharpe_outcomes
                failing_solver [1; 0.5] [[4; 0]; [0; 4]] 0.25) as (H & _).
    apply H. left. eexists. repeat split.
  - destruct (optimize_sharpe_outcomes
                accepting_solver [1; 0.5] [[4; 0]; [0; 4]] 0.25) as (_ & H & _).
    apply H. eexists. repeat split.
  - destruct (optimize_sharpe_outcomes
                failing_solver [1; 0.5] [[4; 0; 0]; [0; 4; 0]] 0.25)
      as (_ & _ & _ & H).
    apply H; [apply failing_solver_evaluates_start | reflexivity].
Defined.


(** * Further properties of the program *)

(** ** More IEEE binary64 facts *)

Module F64Nan.

Lemma add_nan_l (y : float) : (nan + y)%float = nan.
Proof. apply Prim2SF_inj. rewrite add_spec. reflexivity. Qed.

Lemma add_nan_r (x : float) : (x + nan)%float = nan.
Proof.
  apply Prim2SF_inj. rewrite add_spec. change (Prim2SF nan) with S754_nan.
  unfold SF64add, SFadd. destruct (Prim2SF x); reflexivity.
Qed.

Lemma mul_nan_l (y : float) : (nan * y)%float = nan.
Proof. apply Prim2SF_inj. rewrite mul_spec. reflexivity. Qed.

Lemma mul_nan_r (x : float) : (x * nan)%float = nan.
Proof. rewrite F64Facts.mul_comm. apply mul_nan_l. Qed.

Lemma opp_involutive (x : float) : (- - x)%float = x.
Proof.
  apply Prim2SF_inj. rewrite !opp_spec.
  destruct (Prim2SF x) as [s|s| |s m e]; simpl; try rewrite negb_involutive;
    reflexivity.
Qed.

Lemma opp_inj (x y : float) : (- x)%float = (- y)%float -> x = y.
Proof.
  intros H. rewrite <- (opp_involutive x), <- (opp_involutive y). now rewrite H.
Qed.

(** Nothing that compares equal to zero or above it compares below it. *)
Lemma eqb_zero_not_below x : (x =? 0)%float = true -> (x <? 0)%float = false.
Proof.
  rewrite ltb_spec, eqb_spec. change (Prim2SF 0) with (S754_zero false).
  unfold SFltb, SFeqb, SFcompare.
  destruct (Prim2SF x) as [s|s| |s m e]; try discriminate; try reflexivity;
    destruct s; discriminate.
Qed.

Lemma above_zero_not_below x : (0 <? x)%float = true -> (x <? 0)%float = false.
Proof.
  rewrite !ltb_spec. change (Prim2SF 0) with (S754_zero false).
  unfold SFltb, SFcompare.
  destruct (Prim2SF x) as [s|s| |s m e]; try discriminate;
    destruct s; try discriminate; reflexivity.
Qed.

Lemma sqrt_not_below_zero x : (sqrt x <? 0)%float = false.
Proof.
  destruct (F64Facts.sqrt_range x) as [E|[E|E]].
  - rewrite E. reflexivity.
  - now apply eqb_zero_not_below.
  - now apply above_zero_not_below.
Qed.

End F64Nan.

(** A running sum that has met a NaN stays NaN. *)
Lemma fold_add_nan (v : list float) : fold_left add v nan = nan.
Proof.
  induction v as [|a v IH]; simpl; [reflexivity|].
  now rewrite F64Nan.add_nan_l.
Qed.

Lemma sum_nan_head (v : list float) : Np.sum (nan :: v) = nan.
Proof. exact (fold_add_nan v). Qed.

(** ** Portfolio Evaluator, continued *)

Lemma portfolio_stats_inv w mu cov rf ret vol sharpe :
  portfolio_stats w mu cov rf = Ok (ret, vol, sharpe) ->
  conformable w mu cov = true /\
  exists var,
    Np.dot w mu = Ok ret /\ portfolio_variance w cov = Ok var /\
    vol = sqrt var /\
    sharpe = (if sqrt var =? 0 then 0 else (ret - rf) / sqrt var).
Proof.
  intros H.
  assert (Hc : conformable w mu cov = true)
    by (apply (portfolio_stats_ok_iff w mu cov rf); eauto).
  split; [exact Hc|].
  destruct (portfolio_stats_defined w mu cov rf Hc) as (ret' & var & Hd & Hv & Hs).
  rewrite Hs in H. injection H as <- <- <-. eauto.
Qed.

(** X1: [portfolio_stats] raises exactly when the shapes of its arguments do
    not fit together, and what it raises is numpy's [ValueError]. *)
Theorem portfolio_stats_raises_iff_shapes_differ w mu cov rf :
  (raises (portfolio_stats w mu cov rf) <-> conformable w mu cov = false) /\
  (forall e, portfolio_stats w mu cov rf = Raise e -> exists msg, e = ValueError msg).
Proof.
  split.
  - pose proof (portfolio_stats_ok_iff w mu cov rf) as Hok. split.
    + intros [e He]. destruct (conformable w mu cov); [|reflexivity].
      destruct (proj2 Hok eq_refl) as [t Ht]. congruence.
    + intros Hc. destruct (result_cases (portfolio_stats w mu cov rf)) as [Ht|Hr];
        [|exact Hr].
      apply Hok in Ht. congruence.
  - intros e. apply portfolio_stats_value_error.
Qed.

(** X2: the volatility [portfolio_stats] returns is never below zero: it is
    NaN, or it compares equal to zero, or it is strictly positive. *)
Theorem portfolio_stats_volatility_not_negative w mu cov rf ret vol sharpe :
  portfolio_stats w mu cov rf = Ok (ret, vol, sharpe) ->
  (vol <? 0) = false /\
  (vol = nan \/ (vol =? 0) = true \/ (0 <? vol) = true).
Proof.
  intros H. apply portfolio_stats_inv in H.
  destruct H as (_ & var & _ & _ & -> & _). split.
  - apply F64Nan.sqrt_not_below_zero.
  - apply F64Facts.sqrt_range.
Qed.

Lemma portfolio_stats_volatility_not_negative_witness :
  portfolio_stats [0.5; 0.5] [1; 0.5] [[4; 0]; [0; 12]] 0.25
  = Ok (0.75, 2, 0.25) /\
  (2 <? 0) = false /\ (2 = nan \/ (2 =? 0) = true \/ (0 <? 2) = true).
Proof.
  split; [reflexivity|].
  apply (portfolio_stats_volatility_not_negative
           [0.5; 0.5] [1; 0.5] [[4; 0]; [0; 12]] 0.25 0.75 2 0.25).
  reflexivity.
Defined.

(** X3: [negative_sharpe] returns [v] exactly when [portfolio_stats] returns
    a Sharpe ratio whose negation is [v], that is the Sharpe ratio [- v]; it
    raises exactly when [portfolio_stats] does, with the same exception. *)
Theorem negative_sharpe_mirrors_portfolio_stats w mu cov rf :
  (forall v, negative_sharpe w mu cov rf = Ok v <->
             exists ret vol, portfolio_stats w mu cov rf = Ok (ret, vol, - v)) /\
  (forall e, negative_sharpe w mu cov rf = Raise e <->
             portfolio_stats w mu cov rf = Raise e).
Proof.
  unfold negative_sharpe.
  destruct (portfolio_stats w mu cov rf) as [[[ret vol] sharpe]|e0]; simpl; split.
  - intros v. split.
    + intros H. injection H as <-. exists ret, vol.
      now rewrite F64Nan.opp_involutive.
    + intros (ret' & vol' & H). injection H as _ _ ->.
      now rewrite F64Nan.opp_involutive.
  - intros e. split; discriminate.
  - intros v. split; [discriminate|]. intros (ret & vol & H). discriminate.
  - intros e. split; intros H; injection H as <-; reflexivity.
Qed.

(** A square problem: [n] expected returns and an [n] by [n] covariance
    matrix. *)
Lemma conformable_length w mu cov :
  conformable mu mu cov = true ->
  conformable w mu cov = (length w =? length mu)%nat.
Proof.
  intros H. apply conformable_inv in H. destruct H as (_ & H2 & H3 & H4).
  unfold conformable. rewrite H3, H4, <- H2.
  destruct (length w =? length mu)%nat eqn:E; simpl; [|reflexivity].
  apply Nat.eqb_eq in E. rewrite E, !Nat.eqb_refl. reflexivity.
Qed.

(** X4: on square moments the objective handed to the solver is defined at
    exactly the points with one weight per asset, the starting point among
    them; the problem carries one pair of bounds per weight of the starting
    point. *)
Theorem objective_defined_iff_one_weight_per_asset mu cov rf :
  conformable mu mu cov = true ->
  let pb := sharpe_problem mu cov rf in
  (forall w, (exists v, objective pb w = Ok v) <-> length w = length mu) /\
  (exists v, objective pb (pb_x0 pb) = Ok v) /\
  length (pb_bounds pb) = length (pb_x0 pb).
Proof.
  intros Hsq pb.
  assert (Hobj : forall w, (exists v, objective pb w = Ok v) <-> length w = length mu).
  { intros w. change (objective pb w) with (negative_sharpe w mu cov rf).
    rewrite <- Nat.eqb_eq, <- (conformable_length w mu cov Hsq).
    rewrite <- (portfolio_stats_ok_iff w mu cov rf). unfold negative_sharpe.
    destruct (portfolio_stats w mu cov rf) as [[[ret vol] sharpe]|e]; simpl; split;
      intros [t Ht]; try discriminate; eauto. }
  assert (Hx0 : length (pb_x0 pb) = length mu).
  { unfold pb, sharpe_problem. simpl. rewrite equal_weights. apply repeat_length. }
  split; [exact Hobj|]. split.
  - apply Hobj. exact Hx0.
  - rewrite Hx0. unfold pb, sharpe_problem. simpl.
    now rewrite length_map, length_seq.
Qed.

Lemma objective_defined_iff_one_weight_per_asset_witness :
  let pb := sharpe_problem [1; 0.5] [[4; 0]; [0; 12]] 0.25 in
  (forall w, (exists v, objective pb w = Ok v) <-> length w = 2%nat) /\
  (exists v, objective pb (pb_x0 pb) = Ok v) /\
  length (pb_bounds pb) = length (pb_x0 pb).
Proof.
  apply (objective_defined_iff_one_weight_per_asset [1; 0.5] [[4; 0]; [0; 12]] 0.25).
  reflexivity.
Defined.

(** ** NaN moments *)

Lemma nth_all_nan (r : list float) j :
  forallb is_nan r = true -> nth j r nan = nan.
Proof.
  revert j. induction r as [|a r IH]; intros [|j]; simpl; auto;
    rewrite andb_true_iff; intros [Ha Hr]; auto.
  now apply F64Facts.is_nan_eq.
Qed.

Lemma column_all_nan (m : Np.matrix) j :
  all_nan m = true -> Np.column j m = repeat nan (length m).
Proof.
  unfold all_nan, Np.column. induction m as [|r m IH]; simpl; [reflexivity|].
  rewrite andb_true_iff. intros [Hr Hm]. now rewrite nth_all_nan, IH.
Qed.

Lemma sum_products_nan_r (w : list float) n :
  (1 <= length w)%nat -> (1 <= n)%nat ->
  Np.sum (map2 mul w (repeat nan n)) = nan.
Proof.
  destruct w as [|a w]; simpl; [lia|]. destruct n as [|n]; [lia|]. intros _ _.
  simpl. rewrite F64Nan.mul_nan_r. apply sum_nan_head.
Qed.

Lemma sum_products_nan_l (w : list float) n :
  (1 <= length w)%nat -> (1 <= n)%nat ->
  Np.sum (map2 mul (repeat nan n) w) = nan.
Proof.
  destruct w as [|a w]; simpl; [lia|]. destruct n as [|n]; [lia|]. intros _ _.
  simpl. rewrite F64Nan.mul_nan_l. apply sum_nan_head.
Qed.

Lemma variance_all_nan w cov :
  length w = length cov -> Np.rectangular cov = true ->
  Np.width cov = length w -> (1 <= length w)%nat -> all_nan cov = true ->
  portfolio_variance w cov = Ok nan.
Proof.
  intros Hl Hr Hw Hn Hnan. unfold portfolio_variance, Np.vecmat.
  rewrite Hl, Nat.eqb_refl, Hr. simpl.
  rewrite (map_ext _ (fun _ => nan)).
  2:{ intros j. rewrite (column_all_nan cov j Hnan).
      apply sum_products_nan_r; lia. }
  rewrite map_const, length_seq, Hw.
  rewrite dot_ok by (now rewrite repeat_length).
  now rewrite sum_products_nan_l.
Qed.

Lemma stats_all_nan w mu cov rf :
  conformable w mu cov = true -> (1 <= length w)%nat -> all_nan cov = true ->
  portfolio_stats w mu cov rf = Ok (Np.sum (map2 mul w mu), nan, nan).
Proof.
  intros Hc Hn Hnan.
  pose proof (conformable_inv w mu cov Hc) as (H1 & H2 & H3 & H4).
  pose proof (variance_all_nan w cov H2 H3 H4 Hn Hnan) as Hv.
  pose proof (portfolio_stats_unfold w mu cov rf _ nan (dot_ok w mu H1) Hv) as Hs.
  change (sqrt nan) with nan in Hs.
  now rewrite F64Facts.eqb_nan_l, F64Facts.div_nan_r in Hs.
Qed.

(** X5: on a covariance matrix that holds nothing but NaN, every portfolio
    of at least one asset gets a NaN volatility and a NaN Sharpe ratio, and
    the objective [negative_sharpe] is NaN as well. *)
Theorem nan_covariance_gives_nan_sharpe w mu cov rf :
  conformable w mu cov = true -> (1 <= length w)%nat -> all_nan cov = true ->
  (exists ret, portfolio_stats w mu cov rf = Ok (ret, nan, nan)) /\
  negative_sharpe w mu cov rf = Ok nan.
Proof.
  intros Hc Hn Hnan. pose proof (stats_all_nan w mu cov rf Hc Hn Hnan) as Hs.
  split; [eauto|].
  unfold negative_sharpe. now rewrite Hs.
Qed.

Lemma nan_covariance_gives_nan_sharpe_witness :
  (exists ret, portfolio_stats [0.5; 0.5] [1; 2] [[nan; nan]; [nan; nan]] 0
               = Ok (ret, nan, nan)) /\
  negative_sharpe [0.5; 0.5] [1; 2] [[nan; nan]; [nan; nan]] 0 = Ok nan.
Proof.
  apply (nan_covariance_gives_nan_sharpe
           [0.5; 0.5] [1; 2] [[nan; nan]; [nan; nan]] 0).
  - reflexivity.
  - simpl. lia.
  - reflexivity.
Defined.

(** ** Moment Estimator, continued *)

Lemma square_shape (m : Np.matrix) n :
  length m = n -> Forall (fun r => length r = n) m ->
  Np.rectangular m = true /\ Np.width m = n.
Proof.
  intros Hl Hr.
  assert (Hw : Np.width m = n).
  { destruct m as [|r m]; [exact Hl|]. inversion Hr; subst. assumption. }
  split; [|exact Hw]. unfold Np.rectangular. rewrite Hw.
  apply forallb_forall. intros r Hin. rewrite Forall_forall in Hr.
  apply Nat.eqb_eq. now apply Hr.
Qed.

Lemma cov_length sample_cov df :
  length (Pd.cov sample_cov df) = Pd.ncols df.
Proof. unfold Pd.cov. now rewrite length_map, length_seq. Qed.

Lemma cov_rows_length sample_cov df :
  Forall (fun r => length r = Pd.ncols df) (Pd.cov sample_cov df).
Proof.
  unfold Pd.cov. apply Forall_forall. intros r Hin.
  apply in_map_iff in Hin. destruct Hin as (i & <- & _).
  now rewrite length_map, length_seq.
Qed.

Lemma annualize_covariance_rows m P n :
  Forall (fun r => length r = n) m ->
  Forall (fun r => length r = n) (annualize_covariance m P).
Proof.
  unfold annualize_covariance. rewrite !Forall_forall.
  intros H r Hin. apply in_map_iff in Hin. destruct Hin as (r0 & <- & Hin0).
  rewrite length_map. now apply H.
Qed.

Lemma moments_square float_pow sample_cov returns mu sigma :
  estimate_moments float_pow sample_cov returns = Ok (mu, sigma) ->
  length mu = Pd.ncols returns /\
  length sigma = Pd.ncols returns /\
  Forall (fun r => length r = Pd.ncols returns) sigma /\
  conformable mu mu sigma = true.
Proof.
  intros H. apply estimate_moments_ok in H. destruct H as [Hm ->].
  assert (Hmu : length mu = Pd.ncols returns)
    by (rewrite (mapM_length _ _ _ Hm); apply mean_length).
  assert (Hs : length (annualize_covariance (Pd.cov sample_cov returns)
                         default_trading_days) = Pd.ncols returns)
    by (unfold annualize_covariance; rewrite length_map; apply cov_length).
  pose proof (annualize_covariance_rows _ default_trading_days _
                (cov_rows_length sample_cov returns)) as Hr.
  destruct (square_shape _ _ Hs Hr) as [Hrect Hw].
  repeat split; auto.
  unfold conformable. now rewrite Hrect, Hw, Hs, Hmu, !Nat.eqb_refl.
Qed.

(** X6: the moments the estimation step returns fit together: one expected
    return per column of the return table and a covariance matrix with as
    many rows and columns, whatever float the cells hold; so
    [portfolio_stats] on them raises exactly for a weight vector of another
    length.  When the step returns no moments, what it raises is an exception
    of [**]. *)
Theorem estimate_moments_shapes float_pow sample_cov returns :
  (forall mu sigma w rf,
     estimate_moments float_pow sample_cov returns = Ok (mu, sigma) ->
     length mu = Pd.ncols returns /\
     length sigma = Pd.ncols returns /\
     Forall (fun r => length r = Pd.ncols returns) sigma /\
     (raises (portfolio_stats w mu sigma rf) <-> length w <> Pd.ncols returns)) /\
  (forall e,
     estimate_moments float_pow sample_cov returns = Raise e ->
     exists b, float_pow b 252%Z = Raise e).
Proof.
  split.
  - intros mu sigma w rf H.
    destruct (moments_square _ _ _ _ _ H) as (Hmu & Hs & Hr & Hsq).
    repeat split; auto.
    + intros [e He] Hw.
      assert (Hc : conformable w mu sigma = true).
      { rewrite (conformable_length w mu sigma Hsq), Hmu. now apply Nat.eqb_eq. }
      apply (portfolio_stats_ok_iff w mu sigma rf) in Hc. destruct Hc as [t Ht].
      congruence.
    + intros Hw. destruct (result_cases (portfolio_stats w mu sigma rf)) as [Ht|Hx];
        [|exact Hx].
      apply portfolio_stats_ok_iff in Ht.
      rewrite (conformable_length w mu sigma Hsq), Hmu in Ht.
      apply Nat.eqb_eq in Ht. contradiction.
  - intros e H. apply estimate_moments_raise in H.
    apply (mapM_raise _ _ _ nan) in H. destruct H as (i & _ & He & _).
    apply annualize_returns_raise in He. eauto.
Qed.

Lemma usable_pairs_length df i j :
  (length (Pd.usable_pairs df i j)
   <= length (Pd.rows df))%nat.
Proof.
  unfold Pd.usable_pairs.
  etransitivity; [apply filter_length_le|].
  rewrite length_combine. unfold Pd.column. rewrite !length_map. lia.
Qed.

(** Fewer than two observations leave no sample covariance. *)
Lemma cov_entry_short sample_cov df i j :
  (length (Pd.rows df) <= 1)%nat -> Pd.cov_entry sample_cov df i j = nan.
Proof.
  intros Hlen. pose proof (usable_pairs_length df i j) as Hl.
  unfold Pd.cov_entry.
  destruct (Nat.ltb_spec (length (Pd.usable_pairs df i j)) 2); [reflexivity|lia].
Qed.

Lemma cov_all_nan_short sample_cov df :
  (length (Pd.rows df) <= 1)%nat -> all_nan (Pd.cov sample_cov df) = true.
Proof.
  intros Hlen. unfold Pd.cov, all_nan.
  apply forallb_forall. intros r Hin.
  apply in_map_iff in Hin. destruct Hin as (i & <- & _).
  apply forallb_forall. intros c Hin.
  apply in_map_iff in Hin. destruct Hin as (j & <- & _).
  now rewrite cov_entry_short.
Qed.

Lemma annualize_all_nan m P :
  all_nan m = true -> all_nan (annualize_covariance m P) = true.
Proof.
  unfold all_nan, annualize_covariance. rewrite !forallb_forall.
  intros H r Hin. apply in_map_iff in Hin. destruct Hin as (r0 & <- & Hin0).
  specialize (H r0 Hin0). rewrite forallb_forall in H.
  apply forallb_forall. intros c Hc.
  apply in_map_iff in Hc. destruct Hc as (c0 & <- & Hc0).
  apply H, F64Facts.is_nan_eq in Hc0. subst c0.
  now rewrite F64Nan.mul_nan_l.
Qed.

Lemma moments_all_nan_short float_pow sample_cov returns mu sigma :
  (length (Pd.rows returns) <= 1)%nat ->
  estimate_moments float_pow sample_cov returns = Ok (mu, sigma) ->
  all_nan sigma = true.
Proof.
  intros Hlen H. apply estimate_moments_ok in H. destruct H as [_ ->].
  apply annualize_all_nan. now apply cov_all_nan_short.
Qed.

(** X7: a return table of fewer than two rows (at most two price
    timestamps went into it) leaves an annualized covariance matrix that
    holds nothing but NaN, whatever routine is behind [DataFrame.cov]; such
    is the matrix of any moments estimated from it. *)
Theorem short_history_gives_nan_covariance float_pow sample_cov returns :
  (length (Pd.rows returns) <= 1)%nat ->
  all_nan (annualize_covariance (Pd.cov sample_cov returns)
                                default_trading_days) = true /\
  forall mu sigma,
    estimate_moments float_pow sample_cov returns = Ok (mu, sigma) ->
    all_nan sigma = true.
Proof.
  intros Hlen. split.
  - apply annualize_all_nan. now apply cov_all_nan_short.
  - intros mu sigma. now apply moments_all_nan_short.
Qed.

Lemma short_history_gives_nan_covariance_witness :
  estimate_moments rounding_pow two_pass_cov (Pd.mkDF 2 [[1; -0.5]])
  = Ok ([0x1p+252; -1], [[nan; nan]; [nan; nan]]) /\
  all_nan [[nan; nan]; [nan; nan]] = true.
Proof.
  split; [reflexivity|].
  destruct (short_history_gives_nan_covariance
              rounding_pow two_pass_cov (Pd.mkDF 2 [[1; -0.5]])
              ltac:(simpl; lia)) as [_ H].
  apply (H [0x1p+252; -1]). reflexivity.
Defined.

Lemma annualize_covariance_entry_square m P n i j :
  length m = n -> Forall (fun r => length r = n) m ->
  (i < n)%nat -> (j < n)%nat ->
  entry i j (annualize_covariance m P) = entry i j m * F64.of_int P.
Proof.
  intros Hl Hr Hi Hj. apply annualize_covariance_entry; [lia|].
  rewrite Forall_forall in Hr. rewrite (Hr (nth i m [])); [exact Hj|].
  apply nth_In. lia.
Qed.

(** X8: for a number of trading days in the range of a machine integer,
    [annualize_covariance] keeps the shape of a square matrix, scales every
    entry by that number, and keeps a symmetric matrix symmetric. *)
Theorem annualize_covariance_keeps_shape_and_symmetry m P n :
  (- 2 ^ 63 <= P < 2 ^ 63)%Z ->
  length m = n -> Forall (fun r => length r = n) m ->
  length (annualize_covariance m P) = n /\
  Forall (fun r => length r = n) (annualize_covariance m P) /\
  (forall i j, (i < n)%nat -> (j < n)%nat ->
     entry i j (annualize_covariance m P) = entry i j m * F64.of_int P) /\
  ((forall i j, (i < n)%nat -> (j < n)%nat -> entry i j m = entry j i m) ->
   forall i j, (i < n)%nat -> (j < n)%nat ->
     entry i j (annualize_covariance m P) = entry j i (annualize_covariance m P)).
Proof.
  intros _ Hl Hr. split; [|split; [|split]].
  - unfold annualize_covariance. now rewrite length_map.
  - now apply annualize_covariance_rows.
  - intros i j Hi Hj. now apply (annualize_covariance_entry_square m P n).
  - intros Hsym i j Hi Hj.
    rewrite !(annualize_covariance_entry_square m P n) by assumption.
    now rewrite Hsym.
Qed.

Lemma annualize_covariance_keeps_shape_and_symmetry_witness :
  annualize_covariance [[1; 0.5]; [0.5; 2]] 252 = [[252; 126]; [126; 504]] /\
  length (annualize_covariance [[1; 0.5]; [0.5; 2]] 252) = 2%nat.
Proof.
  split; [reflexivity|].
  apply (annualize_covariance_keeps_shape_and_symmetry [[1; 0.5]; [0.5; 2]] 252 2).
  - lia.
  - reflexivity.
  - repeat constructor.
Defined.

(** ** Return Series Builder, continued *)

Lemma pct_rows_first_dropped k rs :
  (length (filter (existsb F64.notna) (pct_rows (repeat nan k) rs))
   <= length rs - 1)%nat.
Proof.
  destruct rs as [|r rs]; [simpl; lia|].
  simpl. rewrite return_on_missing_row.
  etransitivity; [apply filter_length_le|]. rewrite pct_rows_length. lia.
Qed.

Lemma filter_idempotent {A} (f : A -> bool) (l : list A) :
  filter f (filter f l) = filter f l.
Proof. apply forallb_filter_id, forallb_filter. Qed.

Lemma returns_rows_bound fm prices :
  (length (Pd.rows (compute_daily_returns fm prices))
   <= length (Pd.rows prices) - 1)%nat.
Proof.
  change (Pd.rows (compute_daily_returns fm prices))
    with (filter (existsb F64.notna) (Pd.rows (Pd.pct_change fm prices))).
  destruct fm.
  - rewrite pct_change_rows_FillNone. apply pct_rows_first_dropped.
  - rewrite pct_change_rows_FillPad.
    etransitivity; [apply pct_rows_first_dropped|].
    unfold Pd.ffill. simpl. rewrite ffill_rows_length. lia.
Qed.

(** X9: whatever the price table holds, and under either default of
    [fill_method], the return table has the columns of the price table, at
    least one row fewer than it has timestamps, and no row that is missing
    throughout; dropping all-missing rows once more changes nothing. *)
Theorem compute_daily_returns_bounds fm prices :
  let returns := compute_daily_returns fm prices in
  Pd.ncols returns = Pd.ncols prices /\
  (length (Pd.rows returns) <= length (Pd.rows prices) - 1)%nat /\
  Forall (fun r => existsb F64.notna r = true) (Pd.rows returns) /\
  Pd.dropna_all returns = returns.
Proof.
  intros returns. split; [reflexivity|]. split; [|split].
  - apply returns_rows_bound.
  - apply Forall_forall. intros r Hin.
    apply (dropna_all_rows (Pd.pct_change fm prices)) in Hin. tauto.
  - unfold returns, compute_daily_returns, Pd.dropna_all. simpl.
    now rewrite filter_idempotent.
Qed.

Lemma ffill_fully_observed df : fully_observed df = true -> Pd.ffill df = df.
Proof.
  unfold fully_observed. rewrite forallb_forall. intros H.
  destruct df as [n rs]. unfold Pd.ffill. simpl in *. f_equal.
  apply ffill_rows_observed. apply Forall_forall. intros r Hr.
  apply H in Hr. apply andb_true_iff in Hr. destruct Hr as [Hl Hf].
  apply Nat.eqb_eq in Hl. rewrite repeat_length. split; [exact Hl|].
  apply Forall_forall. rewrite forallb_forall in Hf. exact Hf.
Qed.

(** X10: on a price table with no cell missing the default of
    [fill_method] makes no difference: forward filling leaves the table as
    it is and both settings give the same returns. *)
Theorem fill_method_irrelevant_when_fully_observed prices :
  fully_observed prices = true ->
  Pd.ffill prices = prices /\
  compute_daily_returns Pd.FillPad prices
  = compute_daily_returns Pd.FillNone prices.
Proof.
  intros H. pose proof (ffill_fully_observed prices H) as E.
  split; [exact E|].
  unfold compute_daily_returns, Pd.pct_change. now rewrite E.
Qed.

Lemma fill_method_irrelevant_when_fully_observed_witness :
  Pd.ffill (Pd.mkDF 2 [[1; 4]; [0; 5]; [3; -4]]) = Pd.mkDF 2 [[1; 4]; [0; 5]; [3; -4]] /\
  compute_daily_returns Pd.FillPad (Pd.mkDF 2 [[1; 4]; [0; 5]; [3; -4]])
  = compute_daily_returns Pd.FillNone (Pd.mkDF 2 [[1; 4]; [0; 5]; [3; -4]]).
Proof.
  apply (fill_method_irrelevant_when_fully_observed
           (Pd.mkDF 2 [[1; 4]; [0; 5]; [3; -4]])).
  reflexivity.
Defined.

(** X11: from a price table of at most two timestamps and at least one
    asset, any moments the estimation step returns are such that the
    objective handed to the solver is NaN at every point with one weight per
    asset, and so are the volatility and the Sharpe ratio [portfolio_stats]
    reports there. *)
Theorem two_price_rows_give_nan_objective
    float_pow sample_cov fm prices mu sigma w rf :
  (length (Pd.rows prices) <= 2)%nat -> (1 <= Pd.ncols prices)%nat ->
  length w = Pd.ncols prices ->
  estimate_moments float_pow sample_cov (compute_daily_returns fm prices)
  = Ok (mu, sigma) ->
  objective (sharpe_problem mu sigma rf) w = Ok nan /\
  exists ret, portfolio_stats w mu sigma rf = Ok (ret, nan, nan).
Proof.
  intros Hrows Hcols Hw Hest.
  set (returns := compute_daily_returns fm prices) in *.
  assert (Hret : (length (Pd.rows returns) <= 1)%nat).
  { pose proof (returns_rows_bound fm prices). fold returns in H. lia. }
  pose proof (moments_all_nan_short _ _ _ _ _ Hret Hest) as Hnan.
  destruct (moments_square _ _ _ _ _ Hest) as (Hmu & _ & _ & Hsq).
  assert (Hc : conformable w mu sigma = true).
  { rewrite (conformable_length w mu sigma Hsq), Hmu.
    apply Nat.eqb_eq. exact Hw. }
  pose proof (stats_all_nan w mu sigma rf Hc ltac:(lia) Hnan) as Hs.
  split; [|eauto].
  change (objective (sharpe_problem mu sigma rf) w)
    with (negative_sharpe w mu sigma rf).
  unfold negative_sharpe. now rewrite Hs.
Qed.

Lemma two_price_rows_give_nan_objective_witness :
  compute_daily_returns Pd.FillNone (Pd.mkDF 2 [[1; 4]; [2; 2]])
  = Pd.mkDF 2 [[1; -0.5]] /\
  objective (sharpe_problem [0x1p+252; -1] [[nan; nan]; [nan; nan]] 0)
            [0.5; 0.5] = Ok nan /\
  exists ret,
    portfolio_stats [0.5; 0.5] [0x1p+252; -1] [[nan; nan]; [nan; nan]] 0
    = Ok (ret, nan, nan).
Proof.
  split; [reflexivity|].
  apply (two_price_rows_give_nan_objective
           rounding_pow two_pass_cov Pd.FillNone (Pd.mkDF 2 [[1; 4]; [2; 2]])
           [0x1p+252; -1] [[nan; nan]; [nan; nan]] [0.5; 0.5] 0).
  - simpl. lia.
  - simpl. lia.
  - reflexivity.
  - reflexivity.
Defined.

(** ** Data loading, continued *)

(** X12: [download_prices] raises exactly when the download is empty or
    holds neither an [Adj Close] nor a [Close] field; an empty download is
    reported as such whatever its fields, and every exception raised is a
    [ValueError]. *)
Theorem download_prices_raises_iff data :
  (raises (download_prices data) <->
   download_empty data = true \/ selected_prices data = None) /\
  (download_empty data = true ->
   download_prices data
   = Raise (ValueError "No data downloaded. Check tickers and date range.")) /\
  (forall e, download_prices data = Raise e -> exists msg, e = ValueError msg).
Proof.
  unfold download_prices, selected_prices, raises, no_price_column.
  destruct (download_empty data).
  - split; [|split].
    + split; [auto|]. intros _. eexists; reflexivity.
    + reflexivity.
    + intros e H. injection H as <-. eauto.
  - destruct (getitem "Adj Close" data) as [sel|];
      [|destruct (getitem "Close" data) as [sel|]]; simpl;
      (split; [|split]);
      try (intros e H; try discriminate; injection H as <-; eauto);
      try discriminate;
      (split; [intros [e He]; try discriminate; auto
              | intros [H|H]; try discriminate; eexists; reflexivity]).
Qed.

(** X13: the prices [download_prices] returns have no row that is missing
    throughout, so that dropping such rows again changes nothing; they have
    the columns of the selected table, no more rows than it, and are the
    selected table itself when it had no such row. *)
Theorem download_prices_result_clean data prices :
  download_prices data = Ok prices ->
  Forall (fun r => existsb F64.notna r = true) (Pd.rows prices) /\
  Pd.dropna_all prices = prices /\
  exists raw,
    selected_prices data = Some raw /\
    Pd.ncols prices = Pd.ncols raw /\
    (length (Pd.rows prices) <= length (Pd.rows raw))%nat /\
    (forallb (existsb F64.notna) (Pd.rows raw) = true -> prices = raw).
Proof.
  intros H. destruct (download_prices_inv data prices H) as (raw & Hsel & ->).
  split; [|split].
  - apply Forall_forall. intros r Hin. apply dropna_all_rows in Hin. tauto.
  - unfold Pd.dropna_all. simpl. now rewrite filter_idempotent.
  - exists raw. repeat split; auto.
    + apply filter_length_le.
    + intros Hall. destruct raw as [n rs]. unfold Pd.dropna_all. simpl in *.
      now rewrite forallb_filter_id.
Qed.

Lemma download_prices_result_clean_witness :
  Forall (fun r => existsb F64.notna r = true) [[1; nan]; [3; 6]] /\
  Pd.dropna_all (Pd.mkDF 2 [[1; nan]; [3; 6]]) = Pd.mkDF 2 [[1; nan]; [3; 6]] /\
  exists raw,
    selected_prices
      (two_assets "Close" [1; nan; 3] [nan; nan; 6])
    = Some raw /\
    2%nat = Pd.ncols raw /\
    (2 <= length (Pd.rows raw))%nat /\
    (forallb (existsb F64.notna) (Pd.rows raw) = true
     -> Pd.mkDF 2 [[1; nan]; [3; 6]] = raw).
Proof.
  apply (download_prices_result_clean
           (two_assets "Close" [1; nan; 3] [nan; nan; 6])
           (Pd.mkDF 2 [[1; nan]; [3; 6]])).
  reflexivity.
Defined.

Lemma dropna_to_frame s :
  Pd.dropna_all (to_frame s)
  = Pd.mkDF 1 (map (fun a => [a]) (filter F64.notna s)).
Proof.
  unfold Pd.dropna_all, to_frame. simpl. f_equal.
  rewrite filter_map_swap. f_equal. apply filter_ext.
  intros a. simpl. apply orb_false_r.
Qed.

Lemma of_series_single s : of_series [s] = to_frame s.
Proof.
  unfold of_series, to_frame. simpl. f_equal.
  induction s as [|a s IH]; [reflexivity|].
  simpl. f_equal. rewrite <- seq_shift, map_map. exact IH.
Qed.

Lemma getitem_single_level name cols :
  getitem name (SingleLevel cols) =
  match labelled name cols with
  | [] => None
  | [s] => Some (SeriesSel s)
  | ss => Some (FrameSel (of_series ss))
  end.
Proof. reflexivity. Qed.

Lemma as_frame_single_level name cols sel :
  getitem name (SingleLevel cols) = Some sel ->
  labelled name cols <> [] /\ as_frame sel = of_series (labelled name cols).
Proof.
  rewrite getitem_single_level.
  destruct (labelled name cols) as [|s [|s' ss]]; intros H; try discriminate;
    injection H as <-; (split; [discriminate|]); simpl;
    [now rewrite of_series_single | reflexivity].
Qed.

(** X14: from a download with single-level columns the prices have one
    column per column of the download labelled [Adj Close], or per column
    labelled [Close] when none is labelled [Adj Close], all-missing rows
    dropped; when a single column carries the label they are a one-column
    table holding its observed values in order. *)
Theorem single_level_download_columns cols prices :
  download_prices (SingleLevel cols) = Ok prices ->
  exists ss,
    ss <> [] /\
    (ss = labelled "Adj Close" cols \/
     labelled "Adj Close" cols = [] /\ ss = labelled "Close" cols) /\
    Pd.ncols prices = length ss /\
    prices = Pd.dropna_all (of_series ss) /\
    (forall s, ss = [s] ->
       Pd.rows prices = map (fun a => [a]) (filter F64.notna s)).
Proof.
  intros H. destruct (download_prices_inv _ _ H) as (raw & Hsel & ->).
  unfold selected_prices in Hsel.
  assert (E : exists ss,
             ss <> [] /\
             (ss = labelled "Adj Close" cols \/
              labelled "Adj Close" cols = [] /\ ss = labelled "Close" cols) /\
             raw = of_series ss).
  { destruct (getitem "Adj Close" (SingleLevel cols)) as [sel|] eqn:Ea.
    - injection Hsel as <-.
      destruct (as_frame_single_level _ _ _ Ea) as [Hne ->]. eauto.
    - destruct (getitem "Close" (SingleLevel cols)) as [sel|] eqn:Ec;
        [|discriminate].
      injection Hsel as <-.
      destruct (as_frame_single_level _ _ _ Ec) as [Hne ->].
      exists (labelled "Close" cols). repeat split; auto. right. split; auto.
      rewrite getitem_single_level in Ea.
      destruct (labelled "Adj Close" cols) as [|s [|s' ss]];
        [reflexivity | discriminate | discriminate]. }
  destruct E as (ss & Hne & Hss & ->).
  exists ss. repeat split; auto.
  intros s ->. rewrite of_series_single. now rewrite dropna_to_frame.
Qed.

Lemma single_level_download_columns_witness :
  exists ss,
    ss <> [] /\
    (ss = labelled "Adj Close"
            [("Close"%string, [1; nan; 3]); ("Volume"%string, [7; 8; 9]);
             ("Close"%string, [nan; nan; 6])] \/
     labelled "Adj Close"
       [("Close"%string, [1; nan; 3]); ("Volume"%string, [7; 8; 9]);
        ("Close"%string, [nan; nan; 6])] = [] /\
     ss = labelled "Close"
            [("Close"%string, [1; nan; 3]); ("Volume"%string, [7; 8; 9]);
             ("Close"%string, [nan; nan; 6])]) /\
    Pd.ncols (Pd.mkDF 2 [[1; nan]; [3; 6]]) = length ss /\
    Pd.mkDF 2 [[1; nan]; [3; 6]] = Pd.dropna_all (of_series ss) /\
    (forall s, ss = [s] ->
       Pd.rows (Pd.mkDF 2 [[1; nan]; [3; 6]])
       = map (fun a => [a]) (filter F64.notna s)).
Proof.
  apply (single_level_download_columns
           [("Close"%string, [1; nan; 3]); ("Volume"%string, [7; 8; 9]);
            ("Close"%string, [nan; nan; 6])]
           (Pd.mkDF 2 [[1; nan]; [3; 6]])).
  reflexivity.
Defined.

Lemma of_series_cell ss t k :
  (t < length (hd [] ss))%nat -> (k < length ss)%nat ->
  Pd.cell t k (of_series ss) = nth t (nth k ss []) nan.
Proof.
  intros Ht Hk. unfold Pd.cell, of_series. cbn [Pd.rows].
  rewrite nth_map_seq by assumption.
  rewrite (nth_indep _ nan (nth t [] nan)) by (now rewrite length_map).
  apply (map_nth (fun s => nth t s nan)).
Qed.

Lemma as_frame_multi_level name cols sel :
  getitem name (MultiLevel cols) = Some sel ->
  labelled name (level0 cols) <> [] /\
  as_frame sel = of_series (labelled name (level0 cols)).
Proof.
  cbn [getitem].
  destruct (labelled name (level0 cols)) as [|s ss]; intros H;
    [discriminate|].
  injection H as <-. split; [discriminate|reflexivity].
Qed.

(** X20: from a download with MultiIndex columns the prices have one column
    per column of the download whose field is [Adj Close], or whose field is
    [Close] when no column has the field [Adj Close], in the order of the
    download and without the all-missing rows; before those rows are dropped,
    the cell of column [k] at timestamp [t] is the value of the [k]-th such
    series at [t]. *)
Theorem multi_level_download_columns cols prices :
  download_prices (MultiLevel cols) = Ok prices ->
  exists ss,
    ss <> [] /\
    (ss = labelled "Adj Close" (level0 cols) \/
     labelled "Adj Close" (level0 cols) = [] /\
     ss = labelled "Close" (level0 cols)) /\
    Pd.ncols prices = length ss /\
    prices = Pd.dropna_all (of_series ss) /\
    length (Pd.rows (of_series ss)) = length (hd [] ss) /\
    (forall t k, (t < length (hd [] ss))%nat -> (k < length ss)%nat ->
       Pd.cell t k (of_series ss) = nth t (nth k ss []) nan).
Proof.
  intros H. destruct (download_prices_inv _ _ H) as (raw & Hsel & ->).
  unfold selected_prices in Hsel.
  assert (E : exists ss,
             ss <> [] /\
             (ss = labelled "Adj Close" (level0 cols) \/
              labelled "Adj Close" (level0 cols) = [] /\
              ss = labelled "Close" (level0 cols)) /\
             raw = of_series ss).
  { destruct (getitem "Adj Close" (MultiLevel cols)) as [sel|] eqn:Ea.
    - injection Hsel as <-.
      destruct (as_frame_multi_level _ _ _ Ea) as [Hne ->]. eauto.
    - destruct (getitem "Close" (MultiLevel cols)) as [sel|] eqn:Ec;
        [|discriminate].
      injection Hsel as <-.
      destruct (as_frame_multi_level _ _ _ Ec) as [Hne ->].
      exists (labelled "Close" (level0 cols)). repeat split; auto.
      right. split; auto. cbn [getitem] in Ea.
      destruct (labelled "Adj Close" (level0 cols)); [reflexivity|discriminate]. }
  destruct E as (ss & Hne & Hss & ->).
  exists ss. repeat split; auto.
  - unfold of_series. cbn [Pd.rows]. now rewrite length_map, length_seq.
  - apply of_series_cell.
Qed.

Lemma multi_level_download_columns_witness :
  download_prices
    (MultiLevel [(("Close", "AAA")%string, [1; nan; 3]);
                 (("Volume", "AAA")%string, [7; 8; 9]);
                 (("Close", "BBB")%string, [nan; nan; 6])])
  = Ok (Pd.mkDF 2 [[1; nan]; [3; 6]]) /\
  exists ss,
    ss <> [] /\
    (ss = labelled "Adj Close"
            (level0 [(("Close", "AAA")%string, [1; nan; 3]);
                     (("Volume", "AAA")%string, [7; 8; 9]);
                     (("Close", "BBB")%string, [nan; nan; 6])]) \/
     labelled "Adj Close"
       (level0 [(("Close", "AAA")%string, [1; nan; 3]);
                (("Volume", "AAA")%string, [7; 8; 9]);
                (("Close", "BBB")%string, [nan; nan; 6])]) = [] /\
     ss = labelled "Close"
            (level0 [(("Close", "AAA")%string, [1; nan; 3]);
                     (("Volume", "AAA")%string, [7; 8; 9]);
                     (("Close", "BBB")%string, [nan; nan; 6])])) /\
    Pd.ncols (Pd.mkDF 2 [[1; nan]; [3; 6]]) = length ss /\
    Pd.mkDF 2 [[1; nan]; [3; 6]] = Pd.dropna_all (of_series ss) /\
    length (Pd.rows (of_series ss)) = length (hd [] ss) /\
    (forall t k, (t < length (hd [] ss))%nat -> (k < length ss)%nat ->
       Pd.cell t k (of_series ss) = nth t (nth k ss []) nan).
Proof.
  split; [reflexivity|].
  apply (multi_level_download_columns
           [(("Close", "AAA")%string, [1; nan; 3]);
            (("Volume", "AAA")%string, [7; 8; 9]);
            (("Close", "BBB")%string, [nan; nan; 6])]
           (Pd.mkDF 2 [[1; nan]; [3; 6]])).
  reflexivity.
Defined.

(** ** Console front end *)

Lemma split_nonspace_break c s :
  isspace c = false ->
  (s = EmptyString \/ exists d s', s = String d s' /\ isspace d = true) ->
  split (String c s) = String c EmptyString :: split s.
Proof.
  intros Hc [->|(d & s' & -> & Hd)]; simpl; rewrite Hc; [reflexivity|].
  now rewrite Hd.
Qed.

Lemma split_nonspace_glue c d s :
  isspace c = false -> isspace d = false ->
  split (String c (String d s)) =
  match split (String d s) with
  | t :: ts => String c t :: ts
  | [] => [String c EmptyString]
  end.
Proof.
  intros Hc Hd. change (split (String c (String d s))) with
    (if isspace c then split (String d s)
     else if isspace d then String c EmptyString :: split (String d s)
          else match split (String d s) with
               | t :: ts => String c t :: ts
               | [] => [String c EmptyString]
               end).
  now rewrite Hc, Hd.
Qed.

Lemma split_space c s : isspace c = true -> split (String c s) = split s.
Proof. intros Hc. simpl. now rewrite Hc. Qed.

Lemma split_words s : Forall (fun t => is_word t = true) (split s).
Proof.
  induction s as [|c s IH]; [constructor|].
  destruct (isspace c) eqn:Hc; [now rewrite split_space|].
  assert (W1 : is_word (String c EmptyString) = true)
    by (unfold is_word; simpl; now rewrite Hc).
  destruct s as [|d s'].
  - simpl. rewrite Hc. repeat constructor. exact W1.
  - destruct (isspace d) eqn:Hd.
    + rewrite split_nonspace_break by eauto. constructor; assumption.
    + rewrite split_nonspace_glue by assumption.
      destruct (split (String d s')) as [|t ts]; [repeat constructor; exact W1|].
      inversion IH as [|? ? Ht Hts]; subst. constructor; [|exact Hts].
      unfold is_word in *. simpl. rewrite Hc. simpl.
      apply andb_true_iff in Ht. tauto.
Qed.

Lemma split_lstrip s : split (lstrip s) = split s.
Proof.
  induction s as [|c s IH]; [reflexivity|].
  simpl lstrip. destruct (isspace c) eqn:Hc; [|reflexivity].
  now rewrite split_space.
Qed.

Lemma rstrip_head d s :
  isspace d = false -> rstrip (String d s) = String d (rstrip s).
Proof. intros Hd. simpl. now rewrite Hd. Qed.

Lemma rstrip_space_head d s :
  isspace d = true ->
  rstrip (String d s) = EmptyString \/
  rstrip (String d s) = String d (rstrip s).
Proof.
  intros Hd. simpl. rewrite Hd. destruct (is_empty (rstrip s)); auto.
Qed.

Lemma split_rstrip s : split (rstrip s) = split s.
Proof.
  induction s as [|c s IH]; [reflexivity|].
  destruct (isspace c) eqn:Hc.
  - rewrite (split_space c s Hc).
    destruct (rstrip_space_head c s Hc) as [E|E]; rewrite E.
    + simpl in E. rewrite Hc in E. simpl in E.
      destruct (rstrip s); [exact IH|discriminate].
    + now rewrite split_space.
  - rewrite (rstrip_head c s Hc). destruct s as [|d s']; [reflexivity|].
    destruct (isspace d) eqn:Hd.
    + rewrite (split_nonspace_break c (String d s')) by eauto. rewrite <- IH.
      apply split_nonspace_break; [exact Hc|].
      destruct (rstrip_space_head d s' Hd) as [E|E]; rewrite E; eauto.
    + rewrite (split_nonspace_glue c d s' Hc Hd), <- IH.
      rewrite (rstrip_head d s' Hd). now apply split_nonspace_glue.
Qed.

Lemma split_strip s : split (strip s) = split s.
Proof. unfold strip. now rewrite split_rstrip, split_lstrip. Qed.

Lemma word_tail c d s :
  is_word (String c (String d s)) = true ->
  isspace c = false /\ isspace d = false /\ is_word (String d s) = true.
Proof.
  unfold is_word. simpl. rewrite !andb_true_iff, !negb_true_iff.
  intros (Hc & Hd & Hs). repeat split; auto.
Qed.

Lemma word_head c s : is_word (String c s) = true -> isspace c = false.
Proof.
  unfold is_word. simpl. rewrite andb_true_iff, negb_true_iff. tauto.
Qed.

Lemma split_word w : is_word w = true -> split w = [w].
Proof.
  induction w as [|c w IH]; [discriminate|]. intros Hw.
  destruct w as [|d w'].
  - simpl. now rewrite (word_head _ _ Hw).
  - destruct (word_tail c d w' Hw) as (Hc & Hd & Hw').
    rewrite split_nonspace_glue by assumption. now rewrite IH.
Qed.

Lemma split_word_then_space w rest :
  is_word w = true ->
  split (w ++ " " ++ rest) = w :: split rest.
Proof.
  induction w as [|c w IH]; [discriminate|]. intros Hw.
  destruct w as [|d w'].
  - simpl append. rewrite split_nonspace_break;
      [now rewrite split_space | exact (word_head _ _ Hw) | eauto].
  - destruct (word_tail c d w' Hw) as (Hc & Hd & Hw').
    change ((String c (String d w') ++ " " ++ rest)%string)
      with (String c (String d (w' ++ " " ++ rest)%string)).
    rewrite split_nonspace_glue by assumption.
    change (String d (w' ++ " " ++ rest)%string)
      with ((String d w' ++ " " ++ rest)%string).
    now rewrite IH.
Qed.

Lemma split_join ws :
  Forall (fun t => is_word t = true) ws -> split (join_spaces ws) = ws.
Proof.
  induction ws as [|w ws IH]; [reflexivity|]. intros H.
  inversion H as [|? ? Hw Hws]; subst.
  destruct ws as [|w2 ws']; [now apply split_word|].
  change (join_spaces (w :: w2 :: ws'))
    with ((w ++ " " ++ join_spaces (w2 :: ws'))%string).
  rewrite split_word_then_space by assumption. now rewrite IH.
Qed.

Section MainFacts.

Variable float_pow : float -> Z -> result float.
Variable sample_cov : Pd.DataFrame -> nat -> nat -> float.
Variable minimize : Problem -> result OptimizeResult.
Variable fm : Pd.fill_method.
Variable yf_download : list string -> string -> string -> Download.
Variable parse_float : string -> option float.

Let run_main := main float_pow sample_cov minimize fm yf_download parse_float.

(** [main] past the ticker check, with the ticker list written as the words
    of the line typed. *)
Lemma main_past_check tl sl el rl :
  (2 <= length (split tl))%nat ->
  run_main tl sl el rl =
  match
    (prices <- download_prices (yf_download (split tl) (strip sl) (strip el)) ;;
     let returns := compute_daily_returns fm prices in
     moments <- estimate_moments float_pow sample_cov returns ;;
     let '(exp_returns, cov_annual) := moments in
     _ <- labelled_frame cov_annual (split tl) ;;
     optimal_weights <-
       optimize_sharpe minimize exp_returns cov_annual (rf_rate_of parse_float rl) ;;
     stats <- portfolio_stats optimal_weights exp_returns cov_annual
                              (rf_rate_of parse_float rl) ;;
     Ok (mkReport (split tl) (rf_rate_of parse_float rl) exp_returns cov_annual
                  optimal_weights stats))
  with
  | Ok r => Done r
  | Raise e => Raised e
  end.
Proof.
  intros H. unfold run_main, main. rewrite split_strip.
  apply Nat.ltb_ge in H. rewrite H. reflexivity.
Qed.

Lemma main_not_exit_past_check tl sl el rl code :
  (2 <= length (split tl))%nat -> run_main tl sl el rl <> Exit code.
Proof.
  intros H. rewrite (main_past_check tl sl el rl H).
  match goal with |- match ?m with _ => _ end <> _ => destruct m end;
    discriminate.
Qed.

Lemma main_exit_when_few tl sl el rl :
  (length (split tl) < 2)%nat -> run_main tl sl el rl = Exit 1.
Proof.
  intros Hlt. unfold run_main, main. rewrite split_strip.
  apply Nat.ltb_lt in Hlt. now rewrite Hlt.
Qed.

Lemma main_past_check_inv tl sl el rl :
  (forall code, run_main tl sl el rl <> Exit code) ->
  (2 <= length (split tl))%nat.
Proof.
  intros H. destruct (Nat.lt_ge_cases (length (split tl)) 2) as [Hlt|Hge];
    [|exact Hge].
  exfalso. apply (H 1%Z). now apply main_exit_when_few.
Qed.

(** X15: [main] exits, with status 1, exactly when the line typed for the
    tickers holds fewer than two whitespace-separated words, whatever the
    other lines, the market data and the solver are. *)
Theorem main_exits_iff_fewer_than_two_words tl sl el rl code :
  run_main tl sl el rl = Exit code <->
  code = 1%Z /\ (length (split tl) < 2)%nat.
Proof.
  destruct (Nat.lt_ge_cases (length (split tl)) 2) as [Hlt|Hge].
  - rewrite (main_exit_when_few tl sl el rl Hlt).
    split; [intros H; injection H as <-; auto | intros [-> _]; reflexivity].
  - split.
    + intros H. now apply main_not_exit_past_check in H.
    + intros [_ H]. lia.
Qed.

Lemma labelled_frame_inv m tickers :
  labelled_frame m tickers = Ok tt -> length m = length tickers.
Proof.
  unfold labelled_frame.
  destruct (length m =? length tickers)%nat eqn:E; simpl; [|discriminate].
  intros _. now apply Nat.eqb_eq.
Qed.

Lemma optimize_sharpe_inv mu cov rf w :
  optimize_sharpe minimize mu cov rf = Ok w ->
  exists res,
    minimize (sharpe_problem mu cov rf) = Ok res /\
    success res = true /\ w = x res.
Proof.
  rewrite optimize_sharpe_unfold.
  destruct (minimize (sharpe_problem mu cov rf)) as [res|e]; [|discriminate].
  destruct (success res) eqn:Hs; [|discriminate].
  intros H. injection H as <-. eauto.
Qed.

(** What a finished run went through. *)
Lemma main_done_inv tl sl el rl r :
  run_main tl sl el rl = Done r ->
  (2 <= length (split tl))%nat /\
  exists prices mu sigma,
    download_prices (yf_download (split tl) (strip sl) (strip el)) = Ok prices /\
    estimate_moments float_pow sample_cov (compute_daily_returns fm prices)
    = Ok (mu, sigma) /\
    labelled_frame sigma (split tl) = Ok tt /\
    optimize_sharpe minimize mu sigma (rf_rate_of parse_float rl)
    = Ok (rp_optimal_weights r) /\
    portfolio_stats (rp_optimal_weights r) mu sigma
                    (rf_rate_of parse_float rl) = Ok (rp_stats r) /\
    r = mkReport (split tl) (rf_rate_of parse_float rl) mu sigma
                 (rp_optimal_weights r) (rp_stats r).
Proof.
  intros H.
  assert (Hge : (2 <= length (split tl))%nat)
    by (apply (main_past_check_inv tl sl el rl); intros code; congruence).
  split; [exact Hge|]. rewrite (main_past_check tl sl el rl Hge) in H.
  destruct (download_prices _) as [prices|e]; cbn [bind] in H; [|discriminate].
  cbv zeta in H.
  destruct (estimate_moments float_pow sample_cov
              (compute_daily_returns fm prices)) as [[mu sigma]|e] eqn:Hest;
    cbn [bind] in H; [|discriminate].
  exists prices, mu, sigma. split; [reflexivity|]. split; [exact Hest|].
  destruct (labelled_frame sigma (split tl)) as [[]|e]; cbn [bind] in H;
    [|discriminate].
  destruct (optimize_sharpe minimize mu sigma _) as [w|e]; cbn [bind] in H;
    [|discriminate].
  destruct (portfolio_stats w mu sigma _) as [st|e] eqn:Hst; cbn [bind] in H;
    [|discriminate].
  injection H as <-. cbn [rp_optimal_weights rp_stats]. rewrite Hst. auto.
Qed.

(** X16: a report [main] arrives at is consistent: its tickers are the words
    of the line typed, at least two; the price table downloaded has one
    column per ticker, and the report holds one expected return and one
    weight per ticker; the weights are the point of a successful solver run
    on the moments estimated from those prices, and the statistics are
    [portfolio_stats] of these weights and moments at the risk-free rate
    read from its line. *)
Theorem main_report_consistent tl sl el rl r :
  run_main tl sl el rl = Done r ->
  rp_tickers r = split tl /\
  (2 <= length (rp_tickers r))%nat /\
  Forall (fun t => is_word t = true) (rp_tickers r) /\
  rp_rf_rate r = rf_rate_of parse_float rl /\
  length (rp_exp_returns r) = length (rp_tickers r) /\
  length (rp_optimal_weights r) = length (rp_tickers r) /\
  portfolio_stats (rp_optimal_weights r) (rp_exp_returns r) (rp_cov_annual r)
                  (rp_rf_rate r) = Ok (rp_stats r) /\
  (exists res,
     minimize (sharpe_problem (rp_exp_returns r) (rp_cov_annual r)
                              (rp_rf_rate r)) = Ok res /\
     success res = true /\ rp_optimal_weights r = x res) /\
  exists prices,
    download_prices (yf_download (rp_tickers r) (strip sl) (strip el)) = Ok prices /\
    Pd.ncols prices = length (rp_tickers r) /\
    estimate_moments float_pow sample_cov (compute_daily_returns fm prices)
    = Ok (rp_exp_returns r, rp_cov_annual r).
Proof.
  intros H. destruct (main_done_inv tl sl el rl r H)
    as (Hge & prices & mu & sigma & Hd & Hest & Hlab & Hopt & Hst & Hr).
  set (returns := compute_daily_returns fm prices) in *.
  destruct (moments_square _ _ _ _ _ Hest) as (Hmu & Hs & _ & Hsq).
  apply labelled_frame_inv in Hlab. rewrite Hs in Hlab.
  assert (Hw : length (rp_optimal_weights r) = Pd.ncols returns).
  { pose proof (proj1 (portfolio_stats_ok_iff _ _ _ _) (ex_intro _ _ Hst)) as Hc.
    rewrite (conformable_length _ _ _ Hsq), Hmu in Hc. now apply Nat.eqb_eq. }
  apply optimize_sharpe_inv in Hopt.
  rewrite Hr.
  cbn [rp_tickers rp_rf_rate rp_exp_returns rp_cov_annual rp_optimal_weights
       rp_stats].
  split; [reflexivity|]. split; [exact Hge|].
  split; [apply split_words|]. split; [reflexivity|].
  split; [congruence|]. split; [congruence|].
  split; [exact Hst|]. split; [exact Hopt|].
  exists prices. split; [exact Hd|]. split; [exact Hlab|]. exact Hest.
Qed.

(** X17: tickers typed as words separated by single spaces are read back as
    they were typed: with at least two of them [main] does not exit, and a
    report lists exactly these tickers. *)
Theorem main_reads_tickers_back ws sl el rl :
  Forall (fun t => is_word t = true) ws -> (2 <= length ws)%nat ->
  (forall code, run_main (join_spaces ws) sl el rl <> Exit code) /\
  (forall r, run_main (join_spaces ws) sl el rl = Done r -> rp_tickers r = ws).
Proof.
  intros Hws Hlen. pose proof (split_join ws Hws) as E. split.
  - intros code. apply main_not_exit_past_check. now rewrite E.
  - intros r H. apply main_done_inv in H.
    destruct H as (_ & prices & mu & sigma & _ & _ & _ & _ & _ & ->).
    simpl. exact E.
Qed.

End MainFacts.

Lemma main_report_consistent_witness :
  exists r,
    main rounding_pow two_pass_cov accepting_solver Pd.FillNone two_quotes
         parse_four " META  NVDA " "2020-01-01" "2021-01-01" EmptyString
    = Done r /\
    rp_tickers r = ["META"; "NVDA"]%string /\
    length (rp_optimal_weights r) = 2%nat /\
    rp_stats r = (0, 0, 0).
Proof.
  eexists. split; [reflexivity|].
  destruct (main_report_consistent
              rounding_pow two_pass_cov accepting_solver Pd.FillNone two_quotes
              parse_four
              " META  NVDA " "2020-01-01" "2021-01-01" EmptyString _ eq_refl)
    as (Ht & _ & _ & _ & _ & Hw & _).
  split; [exact Ht|]. split; [exact Hw|]. reflexivity.
Defined.

Lemma main_reads_tickers_back_witness :
  (forall code,
     main rounding_pow two_pass_cov accepting_solver Pd.FillNone two_quotes
          parse_four
          (join_spaces ["META"; "NVDA"]%string) "2020-01-01" "2021-01-01" "4"
     <> Exit code) /\
  (forall r,
     main rounding_pow two_pass_cov accepting_solver Pd.FillNone two_quotes
          parse_four
          (join_spaces ["META"; "NVDA"]%string) "2020-01-01" "2021-01-01" "4"
     = Done r ->
     rp_tickers r = ["META"; "NVDA"]%string).
Proof.
  apply (main_reads_tickers_back
           rounding_pow two_pass_cov accepting_solver Pd.FillNone two_quotes
           parse_four
           ["META"; "NVDA"]%string "2020-01-01" "2021-01-01" "4").
  - repeat constructor.
  - simpl. lia.
Defined.

(** ** Valid prices give fully observed returns *)

Lemma map2_length {A B C} (f : A -> B -> C) (l : list A) (l' : list B) :
  length (map2 f l l') = Nat.min (length l) (length l').
Proof.
  revert l'. induction l as [|a l IH]; intros [|b l']; simpl; auto.
Qed.

Lemma return_row_fully_observed n r prev :
  valid_row n r = true -> valid_row n prev = true ->
  ((length (map2 simple_return r prev) =? n)%nat
   && forallb F64.notna (map2 simple_return r prev))%bool = true.
Proof.
  intros Hr Hp.
  apply valid_row_inv in Hr. destruct Hr as [Lr Fr].
  apply valid_row_inv in Hp. destruct Hp as [Lp Fp].
  apply andb_true_iff. split.
  - apply Nat.eqb_eq. rewrite map2_length. lia.
  - clear Lr Lp. revert prev Fp.
    induction Fr as [|a r Ha Fr IH]; intros prev Fp; [reflexivity|].
    destruct Fp as [|b prev Hb Fp]; [reflexivity|]. simpl.
    unfold simple_return at 1. rewrite F64Facts.simple_return_notna by assumption.
    now apply IH.
Qed.

Lemma pct_rows_fully_observed n p rs :
  valid_row n p = true -> forallb (valid_row n) rs = true ->
  forallb (fun r => ((length r =? n)%nat && forallb F64.notna r)%bool)
          (pct_rows p rs) = true.
Proof.
  revert p. induction rs as [|r rs IH]; intros p Hp Hrs; [reflexivity|].
  simpl in Hrs. apply andb_true_iff in Hrs. destruct Hrs as [Hr Hrs].
  simpl. rewrite (return_row_fully_observed n r p Hr Hp). now apply IH.
Qed.

(** X19: from a valid price table (at least one asset, a finite positive
    price in every cell) the return table has no missing cell at all, under
    either default of [fill_method]. *)
Theorem valid_prices_give_fully_observed_returns fm prices :
  valid_prices prices = true ->
  fully_observed (compute_daily_returns fm prices) = true.
Proof.
  intros Hv. unfold fully_observed.
  rewrite (compute_daily_returns_valid fm prices Hv).
  change (Pd.ncols (compute_daily_returns fm prices)) with (Pd.ncols prices).
  unfold valid_prices in Hv. apply andb_true_iff in Hv. destruct Hv as [_ Hrs].
  destruct (Pd.rows prices) as [|r0 rest]; [reflexivity|].
  simpl in Hrs. apply andb_true_iff in Hrs. destruct Hrs as [H0 Hrest].
  now apply pct_rows_fully_observed.
Qed.

Lemma valid_prices_give_fully_observed_returns_witness :
  compute_daily_returns Pd.FillPad (Pd.mkDF 2 [[1; 4]; [2; 5]; [3; 5]])
  = Pd.mkDF 2 [[1; 0.25]; [0.5; 0]] /\
  fully_observed
    (compute_daily_returns Pd.FillPad (Pd.mkDF 2 [[1; 4]; [2; 5]; [3; 5]])) = true.
Proof.
  split; [reflexivity|].
  apply (valid_prices_give_fully_observed_returns
           Pd.FillPad (Pd.mkDF 2 [[1; 4]; [2; 5]; [3; 5]])).
  reflexivity.
Defined.
